(** * PageRank: a shallow embedding of [pagerank.py]

    The two estimators of [pagerank.py] ([sample_pagerank] and
    [iterate_pagerank]), the transition model they share and the helper
    [calcPageRank], translated function by function; then [crawl], which
    builds the graph, and [main], which runs both estimators on it.

    - A Python [dict] is an insertion-ordered association list ([dict V]);
      [d[k] = v] overwrites in place or appends, [d[k]] raises [KeyError].
    - A Python [set] of page names is a [gset string]; only [len], [in] and
      iteration are used by the source.
    - Python exceptions are the [Raise] branch of [result].
    - Floating-point arithmetic is an interface ([PyFloat]) with two
      instances: IEEE binary64 (the primitive floats of Rocq, which is what
      CPython computes with) and exact rationals.
    - The module-level random generator is an explicit state ([rng]).
    - [iterate_pagerank] writes into the dictionary it is given, so it
      returns the caller's dictionary next to its result.
    - The file system and [re.findall] are arguments of [crawl] and [main];
      what [main] prints is the list of lines it returns. *)

From Stdlib Require Import ZArith QArith Qabs Lia.
From Stdlib Require Import Uint63 Floats.PrimFloat Floats.SpecFloat Floats.FloatOps.
From Stdlib Require Import Orders Sorting.Mergesort Sorting.Sorted.
From stdpp Require Import gmap strings list pretty.

Set Default Proof Using "Type".
(* Decimal literals such as 0.85 denote the nearest double, as in Python. *)
Set Warnings "-inexact-float".
Local Open Scope Z_scope.
Local Open Scope nat_scope.

(** ** Exceptions *)

Inductive exn : Type :=
| KeyError
| ValueError
| IndexError
| ZeroDivisionError
| OSError.

Inductive result (A : Type) : Type :=
| Ok (a : A)
| Raise (e : exn).
Arguments Ok {A} a.
Arguments Raise {A} e.

Definition rbind {A B} (m : result A) (k : A -> result B) : result B :=
  match m with
  | Ok a => k a
  | Raise e => Raise e
  end.

Notation "x <-- m ;; k" := (rbind m (fun x => k))
  (at level 90, m at level 70, right associativity).

Definition is_ok {A} (m : result A) : Prop :=
  match m with Ok _ => True | Raise _ => False end.

(** A [for] loop whose body may raise. *)
Fixpoint for_each {A S} (body : S -> A -> result S) (xs : list A) (s : S)
  : result S :=
  match xs with
  | [] => Ok s
  | x :: xs' => s' <-- body s x ;; for_each body xs' s'
  end.

(** ** Dictionaries *)

Definition dict (V : Type) : Type := list (string * V).

Definition keys {V} (d : dict V) : list string := map fst d.

Fixpoint dict_find {V} (d : dict V) (k : string) : option V :=
  match d with
  | [] => None
  | (k', v) :: d' => if String.eqb k k' then Some v else dict_find d' k
  end.

(** [d[k]] *)
Definition dict_get {V} (d : dict V) (k : string) : result V :=
  match dict_find d k with
  | Some v => Ok v
  | None => Raise KeyError
  end.

(** [d[k] = v] *)
Fixpoint dict_set {V} (d : dict V) (k : string) (v : V) : dict V :=
  match d with
  | [] => [(k, v)]
  | (k', v') :: d' =>
      if String.eqb k k' then (k', v) :: d' else (k', v') :: dict_set d' k v
  end.

(** [list(d.keys())[i]] *)
Definition key_at {V} (d : dict V) (i : nat) : result string :=
  match nth_error (keys d) i with
  | Some k => Ok k
  | None => Raise IndexError
  end.

(** The link graph: page name to the set of pages it links to. *)
Definition corpus_t : Type := dict (gset string).

(** ** Floating-point interface *)

Class PyFloat (F : Type) : Type := {
  of_int : Z -> F;            (* an [int] operand converted for mixed arithmetic *)
  literal : Q -> F;           (* the value a decimal literal denotes *)
  fadd : F -> F -> F;
  fsub : F -> F -> F;
  fmul : F -> F -> F;
  fdiv : F -> F -> F;         (* divisor known to be non-zero *)
  fabs : F -> F;
  round4 : F -> F;            (* [round(x, 4)] *)
  fleb : F -> F -> bool;      (* [x <= y] *)
  fltb : F -> F -> bool       (* [x < y] *)
}.

(** The integer nearest to [a / b] for [b > 0], ties to the even one:
    the rounding rule of Python's [round]. *)
Definition round_half_even (a b : Z) : Z :=
  let q := (a / b)%Z in
  let r := (a mod b)%Z in
  match (2 * r ?= b)%Z with
  | Lt => q
  | Gt => (q + 1)%Z
  | Eq => if Z.even q then q else (q + 1)%Z
  end.

(** *** Exact rationals, kept in lowest terms *)

Definition Qround4 (x : Q) : Q :=
  Qred (round_half_even (Qnum x * 10000) (Zpos (Qden x)) # 10000).

Definition Qleb (x y : Q) : bool := Qle_bool x y.
Definition Qltb (x y : Q) : bool := negb (Qle_bool y x).

#[export] Instance Q_float : PyFloat Q := {|
  of_int z := inject_Z z;
  literal q := Qred q;
  fadd x y := Qred (x + y);
  fsub x y := Qred (x - y);
  fmul x y := Qred (x * y);
  fdiv x y := Qred (x / y);
  fabs x := Qabs x;
  round4 := Qround4;
  fleb := Qleb;
  fltb := Qltb
|}.

(** *** IEEE binary64 *)

Definition float_of_Z (z : Z) : float :=
  match z with
  | Z0 => PrimFloat.zero
  | Zpos _ => PrimFloat.of_uint63 (Uint63.of_Z z)
  | Zneg p => PrimFloat.opp (PrimFloat.of_uint63 (Uint63.of_Z (Zpos p)))
  end.

(** [round(x, 4)] on a double, as CPython computes it: the exact binary
    value [m * 2^e] is rounded to four decimals, ties to even, and the result
    is the double nearest to that decimal. The quotient [n / 10000.0] is that
    double as long as [n < 2^53], that is for [|x| < 9 * 10^11]. A double
    with [e >= 0] is an integer; it, the zeros, the infinities and NaN are
    returned as they are. *)
Definition float_round4 (x : float) : float :=
  match Prim2SF x with
  | S754_finite s m (Zneg p) =>
      let n := round_half_even (Zpos m * 10000) (2 ^ Zpos p) in
      let y := PrimFloat.div (float_of_Z n) (float_of_Z 10000) in
      if s then PrimFloat.opp y else y
  | _ => x
  end.

#[export] Instance binary64 : PyFloat float := {|
  of_int := float_of_Z;
  literal q := PrimFloat.div (float_of_Z (Qnum q)) (float_of_Z (Zpos (Qden q)));
  fadd := PrimFloat.add;
  fsub := PrimFloat.sub;
  fmul := PrimFloat.mul;
  fdiv := PrimFloat.div;
  fabs := PrimFloat.abs;
  round4 := float_round4;
  fleb := PrimFloat.leb;
  fltb := PrimFloat.ltb
|}.

(** ** The program *)

Definition SAMPLES : Z := 10000.

Section Program.
Context {F : Type} `{PyFloat F}.

(** [x / n] for an [int] or [len(...)] divisor [n]. *)
Definition div_int (x : F) (n : nat) : result F :=
  match n with
  | O => Raise ZeroDivisionError
  | S _ => Ok (fdiv x (of_int (Z.of_nat n)))
  end.

(** *** [transition_model] *)

Definition transition_model (corpus : corpus_t) (page : string)
    (damping_factor : F) : result (dict F) :=
  links <-- dict_get corpus page ;;
  let nbOfPages := size links in
  if Nat.eqb nbOfPages 0 then
    for_each
      (fun model nextPage =>
         p <-- div_int (of_int 1) (length corpus) ;;
         Ok (dict_set model nextPage p))
      (keys corpus) []
  else
    stay <-- div_int (fsub (of_int 1) damping_factor) (nbOfPages + 1) ;;
    for_each
      (fun model nextPage =>
         a <-- div_int (fsub (of_int 1) damping_factor) (nbOfPages + 1) ;;
         b <-- div_int (fmul damping_factor (of_int 1)) nbOfPages ;;
         Ok (dict_set model nextPage (round4 (fadd a b))))
      (elements links) (dict_set [] page (round4 stay)).

(** *** The random generator

    [random.randrange] and [random.random] read a module-level generator.
    Its state is a pair of tapes, one per kind of draw, and a cursor into
    each; a draw of [randrange(n)] is reduced modulo [n], so every tape
    is a possible run. *)

Record rng : Type := {
  index_tape : nat -> nat;
  unit_tape : nat -> F;
  index_pos : nat;
  unit_pos : nat
}.

(** [random.randrange(n)]: [ValueError] on an empty range. *)
Definition randrange (g : rng) (n : nat) : result (nat * rng) :=
  match n with
  | O => Raise ValueError
  | S _ =>
      Ok (index_tape g (index_pos g) mod n,
          {| index_tape := index_tape g; unit_tape := unit_tape g;
             index_pos := S (index_pos g); unit_pos := unit_pos g |})
  end.

(** [random.random()] *)
Definition random (g : rng) : F * rng :=
  (unit_tape g (unit_pos g),
   {| index_tape := index_tape g; unit_tape := unit_tape g;
      index_pos := index_pos g; unit_pos := S (unit_pos g) |}).

(** *** [sample_pagerank] *)

(** [ranks[page] += 1] on the visit counters. *)
Definition incr (ranks : dict Z) (page : string) : result (dict Z) :=
  c <-- dict_get ranks page ;;
  Ok (dict_set ranks page (c + 1)%Z).

(** The inner [for page in currentModel] loop with its [break]: the first
    page at which the running sum reaches [randomNb], or the page the walk
    is on when none does. *)
Fixpoint pick (currentModel : dict F) (randomNb sum : F)
    (currentPage : string) : string :=
  match currentModel with
  | [] => currentPage
  | (page, p) :: rest =>
      let sum' := fadd sum p in
      if fleb randomNb sum' then page else pick rest randomNb sum' currentPage
  end.

(** One pass of the body of [for i in range(n-1)]. *)
Definition sample_step (corpus : corpus_t) (damping_factor : F)
    (st : dict Z * string * rng) : result (dict Z * string * rng) :=
  let '(ranks, currentPage, g) := st in
  currentModel <-- transition_model corpus currentPage damping_factor ;;
  let '(randomNb, g) := random g in
  if fleb (fsub (of_int 1) damping_factor) randomNb then
    let '(randomNb, g) := random g in
    let currentPage := pick currentModel randomNb (of_int 0) currentPage in
    ranks <-- incr ranks currentPage ;;
    Ok (ranks, currentPage, g)
  else
    ig <-- randrange g (length corpus) ;;
    currentPage <-- key_at ranks (fst ig) ;;
    ranks <-- incr ranks currentPage ;;
    Ok (ranks, currentPage, snd ig).

Fixpoint sample_loop (count : nat) (corpus : corpus_t) (damping_factor : F)
    (st : dict Z * string * rng) : result (dict Z * string * rng) :=
  match count with
  | O => Ok st
  | S count' =>
      st' <-- sample_step corpus damping_factor st ;;
      sample_loop count' corpus damping_factor st'
  end.

(** The closing loop [ranks[page] /= SAMPLES]. *)
Definition normalise (ranks : dict Z) : result (dict F) :=
  for_each
    (fun out kv =>
       v <-- div_int (of_int (snd kv)) (Z.to_nat SAMPLES) ;;
       Ok (out ++ [(fst kv, v)]))
    ranks [].

Definition sample_pagerank (corpus : corpus_t) (damping_factor : F) (n : Z)
    (g : rng) : result (dict F * rng) :=
  let ranks := fold_left (fun r page => dict_set r page 0%Z) (keys corpus) [] in
  let nbOfPages := length corpus in
  ig <-- randrange g nbOfPages ;;
  currentPage <-- key_at ranks (fst ig) ;;
  ranks <-- incr ranks currentPage ;;
  st <-- sample_loop (Z.to_nat (n - 1)) corpus damping_factor
           (ranks, currentPage, snd ig) ;;
  out <-- normalise (fst (fst st)) ;;
  Ok (out, snd st).

(** *** [calcPageRank] *)

Definition calcPageRank (pageToCalculate : string) (corpus : corpus_t)
    (ranks : dict F) (damping_factor : F) : result F :=
  sumOfRightSide <--
    for_each
      (fun acc page =>
         links <-- dict_get corpus page ;;
         if bool_decide (pageToCalculate ∈ links) then
           r <-- dict_get ranks page ;;
           q <-- div_int r (size links) ;;
           Ok (fadd acc (round4 q))
         else Ok acc)
      (keys corpus) (of_int 0) ;;
  base <-- div_int (fsub (of_int 1) damping_factor) (length corpus) ;;
  Ok (fadd (round4 base) (round4 (fmul damping_factor sumOfRightSide))).

(** *** [iterate_pagerank] *)

(** The sink loop, lines 142-145: it assigns into [corpus], the caller's
    dictionary. *)
Definition rewrite_sinks (corpus : corpus_t) : result corpus_t :=
  for_each
    (fun corpus pageToCheck =>
       links <-- dict_get corpus pageToCheck ;;
       if Nat.eqb (size links) 0 then
         let allPages : gset string := list_to_set (keys corpus) in
         Ok (dict_set corpus pageToCheck allPages)
       else Ok corpus)
    (keys corpus) corpus.

(** [for page in ranks: ranks[page] = calcPageRank(page, corpus, ranks, d)]:
    each call receives the dictionary the loop is writing into. *)
Definition update_round (corpus : corpus_t) (damping_factor : F)
    (ranks : dict F) : result (dict F) :=
  for_each
    (fun ranks page =>
       v <-- calcPageRank page corpus ranks damping_factor ;;
       Ok (dict_set ranks page v))
    (keys ranks) ranks.

(** The convergence test, lines 155-159: [flag] after the loop. *)
Definition converged (prevRanks ranks : dict F) : result bool :=
  for_each
    (fun (flag : bool) page =>
       if flag then
         a <-- dict_get prevRanks page ;;
         b <-- dict_get ranks page ;;
         Ok (negb (fltb (literal (1 # 1000)) (fabs (fsub a b))))
       else Ok false)
    (keys ranks) true.

(** [while(True)] runs for at most [fuel] rounds; [None] when the rounds
    are used up before the test succeeds. *)
Fixpoint iterate_loop (fuel : nat) (corpus : corpus_t) (damping_factor : F)
    (ranks : dict F) : option (result (dict F)) :=
  match fuel with
  | O => None
  | S fuel' =>
      let prevRanks := ranks in
      match update_round corpus damping_factor ranks with
      | Raise e => Some (Raise e)
      | Ok ranks =>
          match converged prevRanks ranks with
          | Raise e => Some (Raise e)
          | Ok true => Some (Ok ranks)
          | Ok false => iterate_loop fuel' corpus damping_factor ranks
          end
      end
  end.

Definition init_ranks (corpus : corpus_t) : result (dict F) :=
  let nbOfPages := length corpus in
  for_each
    (fun ranks page =>
       v <-- div_int (of_int 1) nbOfPages ;;
       Ok (dict_set ranks page v))
    (keys corpus) [].

(** The first component is the caller's dictionary as the call leaves it. *)
Definition iterate_pagerank (fuel : nat) (corpus : corpus_t)
    (damping_factor : F) : corpus_t * option (result (dict F)) :=
  match init_ranks corpus with
  | Raise e => (corpus, Some (Raise e))
  | Ok ranks =>
      match rewrite_sinks corpus with
      | Raise e => (corpus, Some (Raise e))  (* a key's own lookup: never taken *)
      | Ok corpus' => (corpus', iterate_loop fuel corpus' damping_factor ranks)
      end
  end.

End Program.

Arguments rng F : clear implicits.


(** ** Definitions used to state the properties *)

(** A dictionary has each key once. *)
Definition wf_dict {V} (d : dict V) : Prop := NoDup (keys d).

(** The invariant of the link graph: every linked page is a page of the
    graph, and no page links to itself. *)
Definition closed_graph (corpus : corpus_t) : Prop :=
  forall p links, dict_find corpus p = Some links ->
    (p ∉ links) /\ (forall q, q ∈ links -> q ∈ keys corpus).

(** The same invariant as a check that runs. *)
Definition closed_graphb (corpus : corpus_t) : bool :=
  forallb
    (fun kv =>
       negb (bool_decide (fst kv ∈ snd kv))
       && forallb (fun q => bool_decide (q ∈ keys corpus)) (elements (snd kv)))
    corpus.

(** [sum(d.values())] *)
Definition dict_sum {F} `{PyFloat F} (d : dict F) : F :=
  fold_left (fun acc kv => fadd acc (snd kv)) d (of_int 0).

(** What the sink loop leaves in the dictionary: every empty link set
    replaced by [all]. *)
Definition fill_sinks (all : gset string) (corpus : corpus_t) : corpus_t :=
  map (fun kv => (fst kv, if Nat.eqb (size (snd kv)) 0 then all else snd kv))
      corpus.

(** The update round as the specification words it: every new rank computed
    from the assignment of the previous round, written to a new assignment. *)
Definition simultaneous_round {F} `{PyFloat F} (corpus : corpus_t)
    (damping_factor : F) (prevRanks : dict F) : result (dict F) :=
  for_each
    (fun newRanks page =>
       v <-- calcPageRank page corpus prevRanks damping_factor ;;
       Ok (dict_set newRanks page v))
    (keys prevRanks) prevRanks.

(** The loop of [iterate_pagerank] with that round in place of the round of
    the source. *)
Fixpoint simultaneous_loop {F} `{PyFloat F} (fuel : nat) (corpus : corpus_t)
    (damping_factor : F) (ranks : dict F) : option (result (dict F)) :=
  match fuel with
  | O => None
  | S fuel' =>
      let prevRanks := ranks in
      match simultaneous_round corpus damping_factor prevRanks with
      | Raise e => Some (Raise e)
      | Ok ranks =>
          match converged prevRanks ranks with
          | Raise e => Some (Raise e)
          | Ok true => Some (Ok ranks)
          | Ok false => simultaneous_loop fuel' corpus damping_factor ranks
          end
      end
  end.


(** *** Example graphs *)

Definition graph_two_cycle : corpus_t :=
  [("A"%string, {["B"%string]}); ("B"%string, {["A"%string]})].

Definition graph_sink : corpus_t :=
  [("A"%string, ∅); ("B"%string, {["A"%string]})].

Definition graph_sink_rewritten : corpus_t :=
  [("A"%string, {["A"%string; "B"%string]}); ("B"%string, {["A"%string]})].

Definition graph_star : corpus_t :=
  [("A"%string, {["B"%string; "C"%string; "D"%string]});
   ("B"%string, {["A"%string]});
   ("C"%string, {["A"%string]});
   ("D"%string, {["A"%string]})].

(** The assignment [sample_pagerank] returns, without the generator. *)
Definition sampled_ranks {F} `{PyFloat F} (r : result (dict F * rng F))
  : result (dict F) :=
  x <-- r ;; Ok (fst x).

(** A generator whose every draw is [0]. *)
Definition zero_rng {F} `{PyFloat F} : rng F :=
  {| index_tape := fun _ => 0; unit_tape := fun _ => of_int 0;
     index_pos := 0; unit_pos := 0 |}.

(** *** Helpers of the proofs *)

(** A loop body that assigns one key: [d[k] = f(d, k)]. *)
Definition assign_body {V} (f : dict V -> string -> result V)
    (d : dict V) (k : string) : result (dict V) :=
  v <-- f d k ;; Ok (dict_set d k v).

(** [for q in qs: model[q] = v] *)
Definition assign_all {V} (v : V) (qs : list string) (model : dict V) : dict V :=
  fold_left (fun model q => dict_set model q v) qs model.

(** The value the source gives to the page itself. *)
Definition stay_value {F} `{PyFloat F} (d : F) (k : nat) : F :=
  round4 (fdiv (fsub (of_int 1) d) (of_int (Z.of_nat (k + 1)))).

(** The value the source gives to a linked page. *)
Definition link_value {F} `{PyFloat F} (d : F) (k : nat) : F :=
  round4 (fadd (fdiv (fsub (of_int 1) d) (of_int (Z.of_nat (k + 1))))
               (fdiv (fmul d (of_int 1)) (of_int (Z.of_nat k)))).

(** What every pass of the walk keeps: the counters have the pages of the
    graph as keys and the walk stands on one of them. *)
Definition walk_inv {F} (corpus : corpus_t) (st : dict Z * string * rng F)
  : Prop :=
  keys (fst (fst st)) = keys corpus /\ snd (fst st) ∈ keys corpus.

(** Decides [wf_dict] of a dictionary given in full. *)
Ltac wf_by_computation :=
  unfold wf_dict;
  match goal with
  | |- NoDup ?l => apply (bool_decide_unpack (NoDup l)); vm_compute; reflexivity
  end.

(** ** [crawl]

    The loops of [crawl] run over what [os.listdir] returned, the argument
    [listing]; the call of [os.listdir] itself, which may raise, is the
    first step of [crawl_directory] below. [read] stands for
    [open(os.path.join(directory, filename)).read()], which may raise, and
    [findall] for [re.findall] with the pattern of line 39 applied to the
    contents of a file. *)

(** [s.endswith(suffix)] *)
Definition endswith (s suffix : string) : bool :=
  let n := String.length s in
  let m := String.length suffix in
  (m <=? n) && String.eqb (String.substring (n - m) m s) suffix.

(** The first loop, lines 34-40. *)
Definition crawl_read (read : string -> result string)
    (findall : string -> list string) (listing : list string)
  : result corpus_t :=
  for_each
    (fun pages filename =>
       if negb (endswith filename ".html") then Ok pages
       else
         contents <-- read filename ;;
         let links := findall contents in
         Ok (dict_set pages filename
               ((list_to_set links : gset string) ∖ {[filename]})))
    listing [].

(** The second loop, lines 43-47: it assigns into the dictionary it walks;
    [link in pages] tests the keys. *)
Definition crawl_filter (pages : corpus_t) : result corpus_t :=
  for_each
    (fun pages filename =>
       links <-- dict_get pages filename ;;
       Ok (dict_set pages filename
             (filter (fun link => link ∈ keys pages) links)))
    (keys pages) pages.

Definition crawl (read : string -> result string)
    (findall : string -> list string) (listing : list string)
  : result corpus_t :=
  pages <-- crawl_read read findall listing ;;
  crawl_filter pages.

(** [crawl(directory)] as it is called: [os.listdir(directory)] on line 34
    is evaluated first and may raise; [read directory] opens and reads a
    file of that directory (lines 37-38). *)
Definition crawl_directory (listdir : string -> result (list string))
    (read : string -> string -> result string)
    (findall : string -> list string) (directory : string)
  : result corpus_t :=
  listing <-- listdir directory ;;
  crawl (read directory) findall listing.

(** ** [main]

    [sorted] on page names is the ascending order of strings, character
    code by character code; the merge sort of the Standard Library computes
    it. What [main] prints is the list of lines it returns. [fmt4] stands
    for the format [:.4f], [listdir] for [os.listdir] and [read directory]
    for reading a file of that directory; [argv] is [sys.argv]. *)

Module StringOrder <: TotalLeBool.
Definition t := string.
Definition leb := String.leb.
Lemma leb_total (s1 s2 : t) : leb s1 s2 = true \/ leb s2 s1 = true.
Proof. apply String.leb_total. Qed.
End StringOrder.

Module StringSort := Sort StringOrder.

(** [sorted(d)] over the keys of a dictionary. *)
Definition sorted_keys {V} (d : dict V) : list string :=
  StringSort.sort (keys d).

Definition DAMPING {F} `{PyFloat F} : F := literal (85 # 100).

(** How a run of [main] ends, with the lines printed until then. *)
Inductive main_outcome : Type :=
| SystemExit (message : string)
| Uncaught (e : exn) (printed : list string)
| Unfinished (printed : list string)
| Finished (printed : list string).

(** [f"  {page}: {ranks[page]:.4f}"] *)
Definition rank_line {F} (fmt4 : F -> string) (page : string) (v : F) : string :=
  ("  " ++ page ++ ": " ++ fmt4 v)%string.

(** [for page in sorted(ranks): print(...)] *)
Definition print_ranks {F} (fmt4 : F -> string) (ranks : dict F)
  : result (list string) :=
  for_each
    (fun printed page =>
       v <-- dict_get ranks page ;;
       Ok (printed ++ [rank_line fmt4 page v]))
    (sorted_keys ranks) [].

Definition sampling_header : string :=
  ("PageRank Results from Sampling (n = " ++ pretty SAMPLES ++ ")")%string.

Definition iteration_header : string := "PageRank Results from Iteration".

Definition main {F} `{PyFloat F} (fmt4 : F -> string)
    (listdir : string -> result (list string))
    (read : string -> string -> result string)
    (findall : string -> list string)
    (argv : list string) (g : rng F) (fuel : nat) : main_outcome :=
  if negb (Nat.eqb (length argv) 2) then
    SystemExit "Usage: python pagerank.py corpus"
  else
    let directory := nth 1 argv ""%string in
    match crawl_directory listdir read findall directory with
    | Raise e => Uncaught e []
    | Ok corpus =>
        match sample_pagerank corpus DAMPING SAMPLES g with
        | Raise e => Uncaught e []
        | Ok (ranks, _) =>
            match print_ranks fmt4 ranks with
            | Raise e => Uncaught e [sampling_header]  (* a key's own lookup: never taken *)
            | Ok lines =>
                let printed := sampling_header :: lines in
                match snd (iterate_pagerank fuel corpus DAMPING) with
                | None => Unfinished printed
                | Some (Raise e) => Uncaught e printed
                | Some (Ok ranks) =>
                    match print_ranks fmt4 ranks with
                    | Raise e => Uncaught e (printed ++ [iteration_header])
                    | Ok lines => Finished (printed ++ iteration_header :: lines)
                    end
                end
            end
        end
    end.

(** The lines for the pages [pages] with the values of [ranks]. *)
Definition rank_lines {F} (fmt4 : F -> string) (ranks : dict F)
    (pages : list string) : list string :=
  flat_map
    (fun page =>
       match dict_find ranks page with
       | Some v => [rank_line fmt4 page v]
       | None => []
       end)
    pages.

(** [f"{x:.4f}"] on a double: the exact binary value rounded to four
    decimals, ties to even, written with its sign, its integer part and four
    decimals. *)
Fixpoint zeros (n : nat) : string :=
  match n with
  | O => ""%string
  | S n' => ("0" ++ zeros n')%string
  end.

Definition pad4 (k : Z) : string :=
  let digits := pretty k in
  (zeros (4 - String.length digits) ++ digits)%string.

Definition fmt4_binary64 (x : float) : string :=
  match Prim2SF x with
  | S754_zero s => ((if s then "-" else "") ++ "0.0000")%string
  | S754_infinity s => if s then "-inf"%string else "inf"%string
  | S754_nan => "nan"%string
  | S754_finite s m e =>
      let n :=
        match e with
        | Zneg p => round_half_even (Zpos m * 10000) (2 ^ Zpos p)
        | _ => (Zpos m * 2 ^ e * 10000)%Z
        end in
      ((if s then "-" else "") ++ pretty (n / 10000)%Z ++ "."
       ++ pad4 (n mod 10000)%Z)%string
  end.

(** *** More definitions used to state properties *)

(** The link sets of [pages] cut down to the names in [known]. *)
Definition keep_known (known : list string) (pages : corpus_t) : corpus_t :=
  map (fun kv => (fst kv, filter (fun link => link ∈ known) (snd kv))) pages.

(** The number of visits the counters hold. *)
Fixpoint count_sum (ranks : dict Z) : Z :=
  match ranks with
  | [] => 0%Z
  | (_, c) :: ranks' => (c + count_sum ranks')%Z
  end.

(** A directory of three pages and a text file: [1.html] links to [2.html],
    to itself and to a page that is not there, [2.html] links to [1.html]
    and [3.html], [3.html] has no link. The contents of a file are written
    as the list of its links, separated by spaces. *)
Definition example_listing : list string :=
  ["1.html"%string; "notes.txt"%string; "2.html"%string; "3.html"%string].

Definition example_read (filename : string) : result string :=
  if String.eqb filename "1.html" then Ok "2.html 1.html 9.html"%string
  else if String.eqb filename "2.html" then Ok "1.html 3.html"%string
  else if String.eqb filename "3.html" then Ok ""%string
  else Raise OSError.

Fixpoint words_from (acc : string) (s : string) : list string :=
  match s with
  | EmptyString => if String.eqb acc "" then [] else [acc]
  | String c s' =>
      if Ascii.eqb c (Ascii.ascii_of_nat 32)
      then (if String.eqb acc "" then [] else [acc]) ++ words_from "" s'
      else words_from (acc ++ String c "")%string s'
  end.

Definition example_findall (contents : string) : list string :=
  words_from "" contents.

Definition example_corpus : corpus_t :=
  [("1.html"%string, {["2.html"%string]});
   ("2.html"%string, {["1.html"%string; "3.html"%string]});
   ("3.html"%string, ∅)].

(** The example directory under the name [corpus0]. *)
Definition example_listdir (directory : string) : result (list string) :=
  if String.eqb directory "corpus0" then Ok example_listing
  else Raise OSError.

(** ** The arithmetic on small cases *)

Example round4_down : round4 0.32083333333333336%float = 0.3208%float.
Proof. vm_compute. reflexivity. Qed.

Example round4_up : round4 (fmul 0.85 0.1429)%float = 0.1215%float.
Proof. vm_compute. reflexivity. Qed.

Example round4_tie_to_even : round4 0.03125%float = 0.0312%float.
Proof. vm_compute. reflexivity. Qed.

Example round4_binary_not_decimal :
  fdiv (fsub (of_int 1) 0.85%float) (of_int 2) = 0.07500000000000001%float
  /\ round4 0.07500000000000001%float = 0.075%float.
Proof. split; vm_compute; reflexivity. Qed.

Example round4_exact_tie : round4 (3125 # 100000)%Q = (39 # 1250)%Q.
Proof. vm_compute. reflexivity. Qed.

Example literal_threshold : literal (1 # 1000) = 0.001%float.
Proof. vm_compute. reflexivity. Qed.

Example float_sum_not_exact : fadd 0.075%float 0.6375%float = 0.7124999999999999%float.
Proof. vm_compute. reflexivity. Qed.

(** ** Dictionary and loop lemmas *)

Section DictLemmas.
Context {V : Type}.
Implicit Types (d : dict V) (k : string) (v : V).

Lemma dict_find_None d k : dict_find d k = None <-> k ∉ keys d.
Proof.
  induction d as [|[k' v'] d IH]; simpl.
  - split; [intros _; apply not_elem_of_nil | done].
  - destruct (String.eqb_spec k k') as [->|Hne].
    + split; [done | intros Hn; exfalso; apply Hn; left].
    + rewrite IH, not_elem_of_cons. naive_solver.
Qed.

Lemma dict_find_Some_in d k v : dict_find d k = Some v -> k ∈ keys d.
Proof.
  intros Hf. destruct (decide (k ∈ keys d)) as [|Hn]; [done|].
  apply dict_find_None in Hn. congruence.
Qed.

Lemma dict_find_in d k : k ∈ keys d -> exists v, dict_find d k = Some v.
Proof.
  intros Hin. destruct (dict_find d k) as [v|] eqn:E; [eauto|].
  apply dict_find_None in E. done.
Qed.

Lemma dict_get_Ok d k v : dict_get d k = Ok v <-> dict_find d k = Some v.
Proof. unfold dict_get. destruct (dict_find d k); naive_solver. Qed.

Lemma dict_get_in d k : k ∈ keys d -> exists v, dict_get d k = Ok v.
Proof.
  intros [v Hv]%dict_find_in. exists v. by apply dict_get_Ok.
Qed.

Lemma dict_get_absent d k : dict_find d k = None -> dict_get d k = Raise KeyError.
Proof. unfold dict_get. by intros ->. Qed.

Lemma dict_find_set_eq d k v : dict_find (dict_set d k v) k = Some v.
Proof.
  induction d as [|[k' v'] d IH]; simpl.
  - by rewrite String.eqb_refl.
  - destruct (String.eqb_spec k k') as [->|Hne]; simpl.
    + by rewrite String.eqb_refl.
    + destruct (String.eqb_spec k k'); [done | apply IH].
Qed.

Lemma dict_find_set_ne d k k' v :
  k <> k' -> dict_find (dict_set d k v) k' = dict_find d k'.
Proof.
  intros Hne. induction d as [|[k0 v0] d IH]; simpl.
  - destruct (String.eqb_spec k' k); [congruence | done].
  - destruct (String.eqb_spec k k0) as [->|Hk]; simpl.
    + destruct (String.eqb_spec k' k0); [congruence | done].
    + destruct (String.eqb_spec k' k0); [done | apply IH].
Qed.

Lemma keys_set_in d k v : k ∈ keys d -> keys (dict_set d k v) = keys d.
Proof.
  induction d as [|[k' v'] d IH]; simpl; intros Hin.
  - by apply elem_of_nil in Hin.
  - destruct (String.eqb_spec k k') as [->|Hne]; simpl; [done|].
    f_equal. apply IH. apply elem_of_cons in Hin. naive_solver.
Qed.

Lemma keys_set_notin d k v : k ∉ keys d -> keys (dict_set d k v) = keys d ++ [k].
Proof.
  induction d as [|[k' v'] d IH]; simpl; intros Hn; [done|].
  apply not_elem_of_cons in Hn as [Hne Hn].
  destruct (String.eqb_spec k k'); [done|]. simpl. f_equal. by apply IH.
Qed.

Lemma dict_set_notin d k v : k ∉ keys d -> dict_set d k v = d ++ [(k, v)].
Proof.
  induction d as [|[k' v'] d IH]; simpl; intros Hn; [done|].
  apply not_elem_of_cons in Hn as [Hne Hn].
  destruct (String.eqb_spec k k'); [done|]. f_equal. by apply IH.
Qed.

Lemma elem_of_keys_set d k v q : q ∈ keys (dict_set d k v) <-> q = k \/ q ∈ keys d.
Proof.
  destruct (decide (k ∈ keys d)) as [Hin|Hn].
  - rewrite keys_set_in by done. naive_solver.
  - rewrite keys_set_notin, elem_of_app, list_elem_of_singleton by done.
    naive_solver.
Qed.

Lemma wf_dict_set d k v : wf_dict d -> wf_dict (dict_set d k v).
Proof.
  unfold wf_dict. intros Hnd. destruct (decide (k ∈ keys d)) as [Hin|Hn].
  - by rewrite keys_set_in.
  - rewrite keys_set_notin by done. apply NoDup_app. split; [done|].
    split; [|apply NoDup_singleton].
    intros x Hx ->%list_elem_of_singleton. done.
Qed.

Lemma dict_find_app_l d1 d2 k v :
  dict_find d1 k = Some v -> dict_find (d1 ++ d2) k = Some v.
Proof.
  induction d1 as [|[k' v'] d1 IH]; simpl; [done|].
  destruct (String.eqb k k'); [done | apply IH].
Qed.

Lemma dict_find_app_r d1 d2 k :
  k ∉ keys d1 -> dict_find (d1 ++ d2) k = dict_find d2 k.
Proof.
  induction d1 as [|[k' v'] d1 IH]; simpl; intros Hn; [done|].
  apply not_elem_of_cons in Hn as [Hne Hn].
  destruct (String.eqb_spec k k'); [done | by apply IH].
Qed.

Lemma dict_set_app_r d1 d2 k v :
  k ∉ keys d1 -> dict_set (d1 ++ d2) k v = d1 ++ dict_set d2 k v.
Proof.
  induction d1 as [|[k' v'] d1 IH]; simpl; intros Hn; [done|].
  apply not_elem_of_cons in Hn as [Hne Hn].
  destruct (String.eqb_spec k k'); [done|]. f_equal. by apply IH.
Qed.

Lemma dict_set_head d k v v' : dict_set ((k, v') :: d) k v = (k, v) :: d.
Proof. simpl. by rewrite String.eqb_refl. Qed.

Lemma keys_app d1 d2 : keys (d1 ++ d2) = keys d1 ++ keys d2.
Proof. unfold keys. apply map_app. Qed.

Lemma length_keys d : length (keys d) = length d.
Proof. unfold keys. apply length_map. Qed.
End DictLemmas.

Section LoopLemmas.
Context {A S : Type}.
Implicit Types (body : S -> A -> result S) (xs : list A) (s : S).

Lemma for_each_app body xs ys s :
  for_each body (xs ++ ys) s = (s' <-- for_each body xs s ;; for_each body ys s').
Proof.
  revert s. induction xs as [|x xs IH]; intros s; simpl; [done|].
  destruct (body s x); simpl; [apply IH | done].
Qed.

(** A loop whose body keeps an invariant and never raises under it runs
    to the end. *)
Lemma for_each_total (P : S -> Prop) body xs s :
  P s ->
  (forall s x, x ∈ xs -> P s -> exists s', body s x = Ok s' /\ P s') ->
  exists s', for_each body xs s = Ok s' /\ P s'.
Proof.
  revert s. induction xs as [|x xs IH]; intros s Hs Hbody; simpl; [eauto|].
  destruct (Hbody s x) as (s1 & -> & Hs1); [left | done |]. simpl.
  apply IH; [done|]. intros s2 y Hy. apply Hbody. by right.
Qed.

End LoopLemmas.

(** ** The sink loop *)

Lemma keys_fill_sinks all corpus : keys (fill_sinks all corpus) = keys corpus.
Proof. unfold fill_sinks, keys. rewrite map_map. by apply map_ext. Qed.

Lemma fill_sinks_app all c1 c2 :
  fill_sinks all (c1 ++ c2) = fill_sinks all c1 ++ fill_sinks all c2.
Proof. apply map_app. Qed.

Lemma size_all_pages (ks : list string) k :
  k ∈ ks -> size (list_to_set ks : gset string) <> 0.
Proof.
  intros Hin Hz. apply size_empty_inv in Hz.
  assert (k ∈ (list_to_set ks : gset string)) as Hk by by apply elem_of_list_to_set.
  rewrite Hz in Hk. by apply elem_of_empty in Hk.
Qed.

(** The loop visits the keys in order; at each key the pages before it are
    already rewritten and the pages from it on are as the caller gave them. *)
Lemma rewrite_sinks_from (all : gset string) (done rest : corpus_t) :
  wf_dict (done ++ rest) ->
  all = list_to_set (keys (done ++ rest)) ->
  for_each
    (fun corpus pageToCheck =>
       links <-- dict_get corpus pageToCheck ;;
       if Nat.eqb (size links) 0 then
         Ok (dict_set corpus pageToCheck (list_to_set (keys corpus)))
       else Ok corpus)
    (keys rest) (fill_sinks all done ++ rest)
  = Ok (fill_sinks all (done ++ rest)).
Proof.
  revert done. induction rest as [|[k links] rest IH]; intros done Hwf Hall; simpl.
  - by rewrite !app_nil_r.
  - assert (k ∉ keys (fill_sinks all done)) as Hk.
    { rewrite keys_fill_sinks. unfold wf_dict in Hwf.
      rewrite keys_app in Hwf. apply NoDup_app in Hwf as (_ & Hd & _).
      intros Hin. apply (Hd k Hin). simpl. left. }
    unfold dict_get at 1. rewrite dict_find_app_r by done. simpl.
    rewrite String.eqb_refl. simpl.
    assert (keys (fill_sinks all done ++ (k, links) :: rest)
            = keys (done ++ (k, links) :: rest)) as Hkeys.
    { by rewrite !keys_app, keys_fill_sinks. }
    specialize (IH (done ++ [(k, links)])).
    rewrite <- app_assoc in IH. simpl in IH. specialize (IH Hwf Hall).
    rewrite fill_sinks_app, <- app_assoc in IH. simpl in IH.
    destruct (Nat.eqb (size links) 0) eqn:E.
    + rewrite dict_set_app_r by done. rewrite dict_set_head.
      rewrite Hkeys, <- Hall. apply IH.
    + apply IH.
Qed.

Lemma rewrite_sinks_spec (corpus : corpus_t) :
  wf_dict corpus ->
  rewrite_sinks corpus = Ok (fill_sinks (list_to_set (keys corpus)) corpus).
Proof.
  intros Hwf. unfold rewrite_sinks.
  exact (rewrite_sinks_from _ [] corpus Hwf eq_refl).
Qed.

Lemma fill_sinks_idem all all' corpus :
  size all <> 0 -> fill_sinks all' (fill_sinks all corpus) = fill_sinks all corpus.
Proof.
  intros Hall. induction corpus as [|[k s] corpus IH]; simpl; [done|].
  f_equal; [|done]. f_equal.
  destruct (Nat.eqb_spec (size s) 0) as [|Hs].
  - by destruct (Nat.eqb_spec (size all) 0).
  - by destruct (Nat.eqb_spec (size s) 0).
Qed.

Lemma dict_find_fill_sinks all corpus p :
  dict_find (fill_sinks all corpus) p
  = (fun links => if Nat.eqb (size links) 0 then all else links)
      <$> dict_find corpus p.
Proof.
  induction corpus as [|[k s] corpus IH]; simpl; [done|].
  destruct (String.eqb p k); [done | apply IH].
Qed.

(** ** Loops that assign one key per pass *)

Section AssignLoops.
Context {V : Type}.
Variable f : dict V -> string -> result V.

Lemma assign_loop_keys ks d d' :
  for_each (assign_body f) ks d = Ok d' ->
  forall q, q ∈ keys d' <-> q ∈ keys d \/ q ∈ ks.
Proof.
  revert d. induction ks as [|k ks IH]; intros d; simpl.
  - intros [= <-] q. rewrite elem_of_nil. naive_solver.
  - unfold assign_body at 1. destruct (f d k) as [v|]; simpl; [|done].
    intros Hloop q. rewrite (IH _ Hloop), elem_of_keys_set, elem_of_cons.
    naive_solver.
Qed.

Lemma assign_loop_wf ks d d' :
  wf_dict d -> for_each (assign_body f) ks d = Ok d' -> wf_dict d'.
Proof.
  revert d. induction ks as [|k ks IH]; intros d Hwf; simpl.
  - by intros [= <-].
  - unfold assign_body at 1. destruct (f d k) as [v|]; simpl; [|done].
    apply IH. by apply wf_dict_set.
Qed.

Lemma assign_loop_same_keys ks d d' :
  (forall k, k ∈ ks -> k ∈ keys d) ->
  for_each (assign_body f) ks d = Ok d' -> keys d' = keys d.
Proof.
  revert d. induction ks as [|k ks IH]; intros d Hin; simpl.
  - by intros [= <-].
  - unfold assign_body at 1. destruct (f d k) as [v|]; simpl; [|done].
    intros Hloop. apply IH in Hloop.
    + rewrite Hloop. apply keys_set_in, Hin. left.
    + intros k' Hk'. apply elem_of_keys_set. right. apply Hin. by right.
Qed.
End AssignLoops.

(** ** The first loop of [iterate_pagerank] *)

Section InitRanks.
Context {F : Type} `{PyFloat F}.

Lemma init_ranks_ok (corpus : corpus_t) : exists ranks,
  init_ranks corpus = Ok ranks /\ wf_dict ranks /\
  forall q, q ∈ keys ranks <-> q ∈ keys corpus.
Proof.
  unfold init_ranks.
  destruct (for_each_total (fun _ : dict F => True)
    (assign_body (fun _ _ => div_int (of_int 1) (length corpus)))
    (keys corpus) []) as (ranks & Hr & _); [done | |].
  - intros ranks page Hpage _. unfold assign_body.
    destruct (length corpus) as [|n] eqn:Hlen.
    { apply nil_length_inv in Hlen. subst corpus. by apply elem_of_nil in Hpage. }
    simpl. eauto.
  - exists ranks. split; [done|]. split.
    + eapply assign_loop_wf; [|done]. apply NoDup_nil_2.
    + intros q. rewrite (assign_loop_keys _ _ _ _ Hr). simpl.
      rewrite elem_of_nil. naive_solver.
Qed.

(** The initial assignment depends on the page names only. *)
Lemma init_ranks_keys (c1 c2 : corpus_t) :
  keys c1 = keys c2 -> init_ranks (F := F) c1 = init_ranks c2.
Proof.
  intros Hk. unfold init_ranks. rewrite <- !(length_keys c1), Hk, length_keys.
  done.
Qed.
End InitRanks.

(** ** [iterate_pagerank]: what the call does to the caller's graph *)

Section CallerGraph.
Context {F : Type} `{PyFloat F}.

(** More rounds do not change a result already reached. *)
Lemma iterate_loop_more_fuel fuel extra corpus (d : F) ranks r :
  iterate_loop fuel corpus d ranks = Some r ->
  iterate_loop (fuel + extra) corpus d ranks = Some r.
Proof.
  revert ranks. induction fuel as [|fuel IH]; intros ranks; simpl; [done|].
  destruct (update_round corpus d ranks) as [ranks'|]; [|done].
  destruct (converged ranks ranks') as [[|]|]; try done. apply IH.
Qed.

Lemma iterate_pagerank_unfold fuel corpus (d : F) :
  wf_dict corpus ->
  exists ranks,
    init_ranks corpus = Ok ranks /\
    iterate_pagerank fuel corpus d
    = (fill_sinks (list_to_set (keys corpus)) corpus,
       iterate_loop fuel (fill_sinks (list_to_set (keys corpus)) corpus) d ranks).
Proof.
  intros Hwf. destruct (init_ranks_ok corpus) as (ranks & Hr & _).
  exists ranks. split; [done|]. unfold iterate_pagerank.
  by rewrite Hr, rewrite_sinks_spec.
Qed.

Lemma fill_sinks_fixed (all : gset string) (corpus : corpus_t) :
  fill_sinks all (fill_sinks (list_to_set (keys corpus)) corpus)
  = fill_sinks (list_to_set (keys corpus)) corpus.
Proof.
  destruct corpus as [|[k s] corpus]; [done|].
  apply fill_sinks_idem. apply (size_all_pages _ k). simpl. left.
Qed.
End CallerGraph.

(** C1 (the code departs from it). A sink page does not keep its empty link
    set across a call of [iterate_pagerank]: whatever the number of rounds
    and the damping factor, the caller's dictionary comes back with the sink
    mapped to the set of all pages, so it is not the dictionary that was
    passed in. *)
Theorem iterate_pagerank_overwrites_sink {F : Type} `{PyFloat F}
    (fuel : nat) (corpus : corpus_t) (d : F) (p : string) :
  wf_dict corpus ->
  dict_find corpus p = Some ∅ ->
  dict_find (fst (iterate_pagerank fuel corpus d)) p
    = Some (list_to_set (keys corpus))
  /\ fst (iterate_pagerank fuel corpus d) <> corpus.
Proof.
  intros Hwf Hp.
  destruct (iterate_pagerank_unfold fuel corpus d Hwf) as (ranks & _ & ->).
  simpl.
  assert (dict_find (fill_sinks (list_to_set (keys corpus)) corpus) p
          = Some (list_to_set (keys corpus))) as Hnew.
  { rewrite dict_find_fill_sinks, Hp. unfold fmap, option_fmap, option_map.
    by rewrite size_empty. }
  split; [done|]. intros Heq. rewrite Heq, Hp in Hnew.
  injection Hnew as Hnew. symmetry in Hnew.
  apply (f_equal size) in Hnew. rewrite size_empty in Hnew.
  apply dict_find_Some_in in Hp.
  by apply (size_all_pages (keys corpus) p) in Hp.
Qed.

Lemma iterate_pagerank_overwrites_sink_witness :
  dict_find (fst (iterate_pagerank 13 graph_sink 0.85%float)) "A"
    = Some (list_to_set (keys graph_sink))
  /\ fst (iterate_pagerank 13 graph_sink 0.85%float) <> graph_sink.
Proof.
  apply (iterate_pagerank_overwrites_sink 13 graph_sink 0.85%float "A").
  - wf_by_computation.
  - reflexivity.
Defined.

(** The rewrite is visible to the sibling function: before the call the
    sink A gets the uniform distribution, after it A is a page with two links,
    one of them to itself, and its distribution no longer sums to 1. *)
Example transition_model_after_iterate_pagerank :
  transition_model graph_sink "A" 0.85%float
  = Ok [("A"%string, 0.5%float); ("B"%string, 0.5%float)]
  /\ transition_model (fst (iterate_pagerank 13 graph_sink 0.85%float)) "A"
       0.85%float
     = Ok [("A"%string, 0.475%float); ("B"%string, 0.475%float)].
Proof. split; vm_compute; reflexivity. Qed.

(** C8. A second call of [iterate_pagerank] on the same dictionary, which
    the first call has already rewritten, returns the same assignment and
    leaves the dictionary as the first call left it. *)
Theorem iterate_pagerank_twice {F : Type} `{PyFloat F}
    (fuel : nat) (corpus : corpus_t) (d : F) :
  wf_dict corpus ->
  iterate_pagerank fuel (fst (iterate_pagerank fuel corpus d)) d
  = iterate_pagerank fuel corpus d.
Proof.
  intros Hwf.
  destruct (iterate_pagerank_unfold fuel corpus d Hwf) as (ranks & Hr & ->).
  simpl. set (corpus' := fill_sinks (list_to_set (keys corpus)) corpus).
  assert (keys corpus' = keys corpus) as Hk by apply keys_fill_sinks.
  assert (wf_dict corpus') as Hwf' by (unfold wf_dict; by rewrite Hk).
  destruct (iterate_pagerank_unfold fuel corpus' d Hwf') as (ranks' & Hr' & ->).
  rewrite (init_ranks_keys corpus' corpus Hk), Hr in Hr'.
  injection Hr' as <-. unfold corpus'. by rewrite fill_sinks_fixed.
Qed.

Lemma iterate_pagerank_twice_witness :
  iterate_pagerank 13 (fst (iterate_pagerank 13 graph_sink 0.85%float)) 0.85%float
  = iterate_pagerank 13 graph_sink 0.85%float.
Proof.
  apply (iterate_pagerank_twice 13 graph_sink 0.85%float).
  wf_by_computation.
Defined.

(** ** The transition model *)

Lemma for_each_ext {A S} (body1 body2 : S -> A -> result S) xs s :
  (forall s x, x ∈ xs -> body1 s x = body2 s x) ->
  for_each body1 xs s = for_each body2 xs s.
Proof.
  revert s. induction xs as [|x xs IH]; intros s Hext; simpl; [done|].
  rewrite Hext by left. destruct (body2 s x); simpl; [|done].
  apply IH. intros s' y Hy. apply Hext. by right.
Qed.

Lemma for_each_assign_all {V} (v : V) qs (model : dict V) :
  for_each (fun model q => Ok (dict_set model q v)) qs model
  = Ok (assign_all v qs model).
Proof.
  revert model. induction qs as [|q qs IH]; intros model; simpl; [done|].
  apply IH.
Qed.

Lemma dict_find_assign_all_in {V} (v : V) qs (model : dict V) q :
  q ∈ qs -> dict_find (assign_all v qs model) q = Some v.
Proof.
  revert model. induction qs as [|q' qs IH]; intros model Hq; simpl.
  - by apply elem_of_nil in Hq.
  - destruct (decide (q ∈ qs)) as [Hin|Hn]; [by apply IH|].
    apply elem_of_cons in Hq as [->|Hq]; [|done].
    clear IH. revert model. induction qs as [|q0 qs IH]; intros model; simpl.
    + apply dict_find_set_eq.
    + apply not_elem_of_cons in Hn as [Hne Hn].
      assert (forall m : dict V, dict_find m q' = Some v ->
                dict_find (assign_all v qs m) q' = Some v) as Hkeep.
      { clear -Hn. revert Hn. induction qs as [|q1 qs IH]; intros Hn m Hm; simpl; [done|].
        apply not_elem_of_cons in Hn as [Hne Hn]. apply IH; [done|].
        rewrite dict_find_set_ne by done. done. }
      apply Hkeep. rewrite dict_find_set_ne by done. apply dict_find_set_eq.
Qed.

Lemma dict_find_assign_all_notin {V} (v : V) qs (model : dict V) q :
  q ∉ qs -> dict_find (assign_all v qs model) q = dict_find model q.
Proof.
  revert model. induction qs as [|q' qs IH]; intros model Hq; simpl; [done|].
  apply not_elem_of_cons in Hq as [Hne Hq].
  rewrite IH by done. by apply dict_find_set_ne.
Qed.

Lemma keys_assign_all {V} (v : V) qs (model : dict V) q :
  q ∈ keys (assign_all v qs model) <-> q ∈ keys model \/ q ∈ qs.
Proof.
  revert model. induction qs as [|q' qs IH]; intros model; simpl.
  - rewrite elem_of_nil. naive_solver.
  - rewrite IH, elem_of_keys_set, elem_of_cons. naive_solver.
Qed.

Lemma wf_assign_all {V} (v : V) qs (model : dict V) :
  wf_dict model -> wf_dict (assign_all v qs model).
Proof.
  revert model. induction qs as [|q' qs IH]; intros model Hwf; simpl; [done|].
  by apply IH, wf_dict_set.
Qed.

Section TransitionModel.
Context {F : Type} `{PyFloat F}.

Lemma div_int_pos (x : F) (n : nat) :
  n <> 0 -> div_int x n = Ok (fdiv x (of_int (Z.of_nat n))).
Proof. by destruct n. Qed.

Lemma transition_model_sink corpus page (d : F) links :
  dict_find corpus page = Some links -> size links = 0 ->
  transition_model corpus page d
  = Ok (assign_all (fdiv (of_int 1) (of_int (Z.of_nat (length corpus))))
                   (keys corpus) []).
Proof.
  intros Hp Hk. unfold transition_model.
  apply dict_get_Ok in Hp as Hget. rewrite Hget. simpl. rewrite Hk. simpl.
  assert (length corpus <> 0) as Hlen.
  { apply dict_find_Some_in in Hp. destruct corpus; [|done].
    by apply elem_of_nil in Hp. }
  rewrite <- for_each_assign_all. apply for_each_ext.
  intros model q _. by rewrite div_int_pos.
Qed.

Lemma transition_model_links corpus page (d : F) links :
  dict_find corpus page = Some links -> size links <> 0 ->
  transition_model corpus page d
  = Ok (assign_all (link_value d (size links)) (elements links)
                   [(page, stay_value d (size links))]).
Proof.
  intros Hp Hk. unfold transition_model.
  apply dict_get_Ok in Hp as Hget. rewrite Hget. simpl.
  destruct (Nat.eqb_spec (size links) 0) as [|_]; [done|].
  rewrite div_int_pos by lia. simpl.
  rewrite <- for_each_assign_all. apply for_each_ext.
  intros model q _. rewrite !div_int_pos by lia. done.
Qed.
End TransitionModel.

(** C10. From a page with at least one outbound link the transition
    distribution has exactly the page and the pages it links to as keys, each
    once; any other page of the graph is absent from it. *)
Theorem transition_model_keys {F : Type} `{PyFloat F}
    (corpus : corpus_t) (page : string) (links : gset string) (d : F) :
  dict_find corpus page = Some links ->
  links <> ∅ ->
  exists model,
    transition_model corpus page d = Ok model /\
    wf_dict model /\
    (forall q, q ∈ keys model <-> q = page \/ q ∈ links) /\
    (forall q, q <> page -> q ∉ links -> dict_find model q = None).
Proof.
  intros Hp Hne.
  assert (size links <> 0) as Hk.
  { intros Hz. apply size_empty_inv in Hz. apply leibniz_equiv in Hz. done. }
  eexists. split; [exact (transition_model_links _ _ d _ Hp Hk)|].
  assert (forall q, q ∈ keys (assign_all (link_value d (size links))
                      (elements links) [(page, stay_value d (size links))])
                    <-> q = page \/ q ∈ links) as Hkeys.
  { intros q. rewrite keys_assign_all, elem_of_elements. simpl.
    rewrite list_elem_of_singleton. done. }
  split; [|split; [done|]].
  - apply wf_assign_all. apply NoDup_singleton.
  - intros q Hq Hnl. apply dict_find_None. rewrite Hkeys. naive_solver.
Qed.

Lemma transition_model_keys_witness :
  exists model,
    transition_model graph_star "A" 0.85%float = Ok model /\
    wf_dict model /\
    (forall q, q ∈ keys model
               <-> q = "A"%string \/ q ∈ ({["B"%string; "C"%string; "D"%string]} : gset string)) /\
    (forall q, q <> "A"%string ->
               q ∉ ({["B"%string; "C"%string; "D"%string]} : gset string) ->
               dict_find model q = None).
Proof.
  apply (transition_model_keys graph_star "A" _ 0.85%float).
  - reflexivity.
  - intros Hempty. apply (f_equal size) in Hempty. vm_compute in Hempty.
    discriminate.
Defined.







(** C5 (the code departs from it). From a page with three links and damping
    0.85 the four values are 0.0375 and three times 0.3208; added up they
    give 0.9999, which is 1e-4 away from 1, more than 1e-6: what the function
    returns is not the probability distribution its docstring names. *)
Lemma transition_model_sum_off :
  exists model,
    transition_model graph_star "A" 0.85%float = Ok model /\
    dict_sum model = 0.9998999999999999%float /\
    fltb (literal (1 # 1000000))
         (fabs (fsub (dict_sum model) (of_int 1))) = true.
Proof.
  eexists. split; [vm_compute; reflexivity|].
  split; vm_compute; reflexivity.
Qed.

(** With these four values the cumulative loop of [sample_pagerank]
    (lines 105-110) selects no page for a draw above 0.9999: the running sum
    never reaches the draw and the walk is left where it stands. *)
Example pick_draw_above_total :
  exists model,
    transition_model graph_star "A" 0.85%float = Ok model /\
    pick model 0.99995%float (of_int 0) "nowhere" = "nowhere"%string.
Proof. eexists. split; vm_compute; reflexivity. Qed.

(** ** Loops that append *)

(** Assigning fresh, distinct keys appends them in order. *)
Lemma assign_all_fresh {V} (v : V) (qs : list string) (model : dict V) :
  NoDup qs -> (forall q, q ∈ qs -> q ∉ keys model) ->
  assign_all v qs model = model ++ map (fun q => (q, v)) qs.
Proof.
  revert model. induction qs as [|q qs IH]; intros model Hnd Hfresh; simpl.
  - by rewrite app_nil_r.
  - apply NoDup_cons in Hnd as [Hq Hnd].
    rewrite dict_set_notin by (apply Hfresh; left).
    rewrite IH; [by rewrite <- app_assoc | done |].
    intros q' Hq'. rewrite keys_app, elem_of_app. simpl.
    rewrite list_elem_of_singleton. intros [Hin| ->]; [|done].
    by apply (Hfresh q'); [right|].
Qed.

(** ** Invalid arguments *)

(** C4, as stated, fails on the code: [iterate_pagerank] on the empty graph
    returns the empty assignment; [sample_pagerank] accepts a sample count of
    0 and a damping factor of 1.5, and [transition_model] a damping factor of
    1.5, and each returns a result. *)
Lemma invalid_arguments_return_results :
  iterate_pagerank 1 [] 0.85%float = ([], Some (Ok []))
  /\ sampled_ranks (sample_pagerank graph_two_cycle 0.85%float 0 zero_rng)
     = Ok [("A"%string, 0.0001%float); ("B"%string, 0%float)]
  /\ sampled_ranks (sample_pagerank graph_two_cycle 1.5%float 3 zero_rng)
     = Ok [("A"%string, 0.0002%float); ("B"%string, 0.0001%float)]
  /\ transition_model graph_two_cycle "A" 1.5%float
     = Ok [("A"%string, (-0.25)%float); ("B"%string, 1.25%float)].
Proof. repeat split; vm_compute; reflexivity. Qed.

(** ** The sampling estimator never raises on a graph that has pages *)

Section Sampling.
Context {F : Type} `{PyFloat F}.

Lemma zero_counts (corpus : corpus_t) :
  wf_dict corpus ->
  fold_left (fun r page => dict_set r page 0%Z) (keys corpus) []
  = map (fun q => (q, 0%Z)) (keys corpus).
Proof.
  intros Hwf. change (fold_left _ (keys corpus) [])
    with (assign_all 0%Z (keys corpus) (@nil (string * Z))).
  rewrite assign_all_fresh; [done | done |]. by intros q _ ?%elem_of_nil.
Qed.

Lemma keys_constant {V} (v : V) (qs : list string) :
  keys (map (fun q => (q, v)) qs) = qs.
Proof. unfold keys. rewrite map_map. simpl. apply map_id. Qed.

Lemma randrange_ok (g : rng F) (n : nat) :
  n <> 0 -> exists i g', randrange g n = Ok (i, g') /\ i < n.
Proof.
  intros Hn. destruct n as [|n]; [done|]. unfold randrange. do 2 eexists.
  split; [reflexivity|]. by apply Nat.mod_upper_bound.
Qed.

Lemma key_at_ok {V} (d : dict V) (i : nat) :
  i < length d -> exists k, key_at d i = Ok k /\ k ∈ keys d.
Proof.
  intros Hi. unfold key_at.
  destruct (nth_error (keys d) i) as [k|] eqn:E.
  - exists k. split; [done|]. apply list_elem_of_In. by apply nth_error_In in E.
  - apply nth_error_None in E. rewrite length_keys in E. lia.
Qed.

Lemma incr_ok (ranks : dict Z) (page : string) :
  page ∈ keys ranks ->
  exists ranks', incr ranks page = Ok ranks' /\ keys ranks' = keys ranks.
Proof.
  intros Hin. unfold incr. destruct (dict_get_in ranks page Hin) as [c ->].
  simpl. eexists. split; [done|]. by apply keys_set_in.
Qed.

Lemma transition_model_ok (corpus : corpus_t) (page : string) (d : F) :
  closed_graph corpus -> page ∈ keys corpus ->
  exists model,
    transition_model corpus page d = Ok model /\
    forall q, q ∈ keys model -> q ∈ keys corpus.
Proof.
  intros Hclosed Hpage. destruct (dict_find_in corpus page Hpage) as [links Hp].
  destruct (Nat.eq_dec (size links) 0) as [Hz|Hnz].
  - eexists. split; [exact (transition_model_sink _ _ d _ Hp Hz)|].
    intros q [Hq|Hq]%keys_assign_all; [by apply elem_of_nil in Hq | done].
  - eexists. split; [exact (transition_model_links _ _ d _ Hp Hnz)|].
    intros q [Hq|Hq]%keys_assign_all.
    + simpl in Hq. apply list_elem_of_singleton in Hq. by subst q.
    + apply elem_of_elements in Hq. by apply (Hclosed page links Hp).
Qed.

Lemma pick_in (model : dict F) (r sum : F) (current : string) :
  pick model r sum current = current \/ pick model r sum current ∈ keys model.
Proof.
  revert sum. induction model as [|[page p] model IH]; intros sum; simpl.
  - by left.
  - destruct (fleb r (fadd sum p)).
    + right. left.
    + destruct (IH (fadd sum p)) as [->|Hin]; [by left | right; by right].
Qed.

Lemma sample_step_ok (corpus : corpus_t) (d : F) st :
  closed_graph corpus -> walk_inv corpus st ->
  exists st', sample_step corpus d st = Ok st' /\ walk_inv corpus st'.
Proof.
  intros Hclosed. destruct st as [[ranks page] g]. intros [Hk Hpage].
  simpl in Hk, Hpage. unfold sample_step.
  destruct (transition_model_ok corpus page d Hclosed Hpage) as (model & -> & Hm).
  cbn [rbind]. destruct (random g) as [r1 g1].
  destruct (fleb (fsub (of_int 1) d) r1).
  - destruct (random g1) as [r2 g2].
    assert (pick model r2 (of_int 0) page ∈ keys corpus) as Hnext.
    { destruct (pick_in model r2 (of_int 0) page) as [->|Hin]; auto. }
    destruct (incr_ok ranks (pick model r2 (of_int 0) page))
      as (ranks' & -> & Hk'); [by rewrite Hk|].
    cbn [rbind]. eexists. split; [done|].
    split; simpl; [by rewrite Hk' | done].
  - assert (length corpus <> 0) as Hlen.
    { destruct corpus; [by apply elem_of_nil in Hpage | done]. }
    destruct (randrange_ok g1 (length corpus) Hlen) as (i & g' & -> & Hi).
    cbn [rbind fst snd]. destruct (key_at_ok ranks i) as (next & -> & Hnext).
    { by rewrite <- length_keys, Hk, length_keys. }
    cbn [rbind]. destruct (incr_ok ranks next Hnext) as (ranks' & -> & Hk').
    cbn [rbind]. eexists. split; [done|]. split; simpl; [by rewrite Hk' |].
    by rewrite <- Hk.
Qed.

Lemma sample_loop_ok (count : nat) (corpus : corpus_t) (d : F) st :
  closed_graph corpus -> walk_inv corpus st ->
  exists st', sample_loop count corpus d st = Ok st' /\ walk_inv corpus st'.
Proof.
  intros Hclosed. revert st. induction count as [|count IH]; intros st Hst; simpl.
  - eauto.
  - destruct (sample_step_ok corpus d st Hclosed Hst) as (st1 & -> & Hst1).
    simpl. by apply IH.
Qed.

Lemma normalise_from (ranks : dict Z) (out : dict F) :
  for_each
    (fun out kv =>
       v <-- div_int (of_int (snd kv)) (Z.to_nat SAMPLES) ;;
       Ok (out ++ [(fst kv, v)]))
    ranks out
  = Ok (out ++ map (fun kv => (fst kv, fdiv (of_int (snd kv)) (of_int SAMPLES)))
                   ranks).
Proof.
  revert out. induction ranks as [|[k c] ranks IH]; intros out; simpl.
  - by rewrite app_nil_r.
  - rewrite IH. by rewrite <- app_assoc.
Qed.

Lemma normalise_spec (ranks : dict Z) :
  normalise ranks
  = Ok (map (fun kv => (fst kv, fdiv (of_int (snd kv)) (of_int SAMPLES))) ranks).
Proof. unfold normalise. by rewrite normalise_from. Qed.

Lemma keys_normalised (ranks : dict Z) :
  keys (map (fun kv => (fst kv, fdiv (of_int (snd kv)) (of_int SAMPLES))) ranks)
  = keys ranks.
Proof. unfold keys. rewrite map_map. by apply map_ext. Qed.

(** On a well-formed graph with at least one page the estimator returns an
    assignment over the pages of the graph, whatever the damping factor and
    the sample count. *)
Lemma sample_pagerank_total (corpus : corpus_t) (d : F) (n : Z) (g : rng F) :
  wf_dict corpus -> closed_graph corpus -> corpus <> [] ->
  exists ranks g',
    sample_pagerank corpus d n g = Ok (ranks, g') /\ keys ranks = keys corpus.
Proof.
  intros Hwf Hclosed Hne. unfold sample_pagerank.
  rewrite zero_counts by done.
  assert (length corpus <> 0) as Hlen by by destruct corpus.
  destruct (randrange_ok g (length corpus) Hlen) as (i & g' & -> & Hi).
  simpl. set (ranks0 := map (fun q => (q, 0%Z)) (keys corpus)).
  assert (keys ranks0 = keys corpus) as Hk0 by apply keys_constant.
  destruct (key_at_ok ranks0 i) as (page & -> & Hpage).
  { by rewrite <- length_keys, Hk0, length_keys. }
  simpl. destruct (incr_ok ranks0 page Hpage) as (ranks1 & -> & Hk1).
  simpl.
  destruct (sample_loop_ok (Z.to_nat (n - 1)) corpus d (ranks1, page, g') Hclosed)
    as ([[ranks2 page2] g2] & -> & Hk2 & _).
  { split; simpl; [by rewrite Hk1 | by rewrite <- Hk0]. }
  simpl in *. rewrite normalise_spec. simpl. do 2 eexists.
  split; [done|]. by rewrite keys_normalised.
Qed.
End Sampling.

Lemma dict_find_Some_elem {V} (d : dict V) k v :
  dict_find d k = Some v -> (k, v) ∈ d.
Proof.
  induction d as [|[k' v'] d IH]; simpl; [done|].
  destruct (String.eqb_spec k k') as [->|Hne].
  - intros [= ->]. left.
  - intros Hf. right. by apply IH.
Qed.

Lemma closed_graphb_correct (corpus : corpus_t) :
  closed_graphb corpus = true -> closed_graph corpus.
Proof.
  intros Hb p links Hp. apply dict_find_Some_elem, list_elem_of_In in Hp.
  unfold closed_graphb in Hb. rewrite forallb_forall in Hb.
  specialize (Hb _ Hp). simpl in Hb. apply andb_true_iff in Hb as [Hself Hall].
  split.
  - apply negb_true_iff, bool_decide_eq_false in Hself. done.
  - intros q Hq. rewrite forallb_forall in Hall.
    apply elem_of_elements, list_elem_of_In in Hq.
    apply Hall in Hq. by apply bool_decide_eq_true in Hq.
Qed.

(** C4 (as amended). The source checks none of its arguments. A transition
    from a page that is not a key raises [KeyError]; sampling on the empty
    graph raises [ValueError]; [iterate_pagerank] on the empty graph returns
    the empty assignment; on a well-formed graph with at least one page the
    sampling estimator returns a result for every damping factor and every
    sample count, a count of at most 1 acting as 1; a transition from a page
    of the graph returns a result for every damping factor. *)
Theorem invalid_argument_behaviour {F : Type} `{PyFloat F} :
  (forall (corpus : corpus_t) page (d : F),
     dict_find corpus page = None ->
     transition_model corpus page d = Raise KeyError)
  /\ (forall (d : F) n g, sample_pagerank [] d n g = Raise ValueError)
  /\ (forall fuel (d : F), iterate_pagerank (S fuel) [] d = ([], Some (Ok [])))
  /\ (forall (corpus : corpus_t) (d : F) n g,
        wf_dict corpus -> closed_graph corpus -> corpus <> [] ->
        is_ok (sample_pagerank corpus d n g))
  /\ (forall (corpus : corpus_t) (d : F) n g,
        (n <= 1)%Z ->
        sample_pagerank corpus d n g = sample_pagerank corpus d 1 g)
  /\ (forall (corpus : corpus_t) page (d : F),
        page ∈ keys corpus -> is_ok (transition_model corpus page d)).
Proof.
  repeat split.
  - intros corpus page d Hp. unfold transition_model.
    by rewrite (dict_get_absent _ _ Hp).
  - intros corpus d n g Hwf Hclosed Hne.
    by destruct (sample_pagerank_total corpus d n g Hwf Hclosed Hne)
      as (ranks & g' & -> & _).
  - intros corpus d n g Hn. unfold sample_pagerank.
    replace (Z.to_nat (n - 1)) with (Z.to_nat (1 - 1)) by lia. done.
  - intros corpus page d [links Hp]%dict_find_in.
    destruct (Nat.eq_dec (size links) 0) as [Hz|Hnz].
    + by rewrite (transition_model_sink _ _ d _ Hp Hz).
    + by rewrite (transition_model_links _ _ d _ Hp Hnz).
Qed.

Lemma invalid_argument_behaviour_witness :
  transition_model graph_two_cycle "Z" 0.85%float = Raise KeyError
  /\ sample_pagerank [] 0.85%float SAMPLES zero_rng = Raise ValueError
  /\ iterate_pagerank 1 [] 0.85%float = ([], Some (Ok []))
  /\ is_ok (sample_pagerank graph_two_cycle 1.5%float (-3) zero_rng)
  /\ sample_pagerank graph_two_cycle 0.85%float (-3) zero_rng
     = sample_pagerank graph_two_cycle 0.85%float 1 zero_rng
  /\ is_ok (transition_model graph_two_cycle "A" 1.5%float).
Proof.
  destruct (invalid_argument_behaviour (F := float))
    as (H1 & H2 & H3 & H4 & H5 & H6).
  split; [apply H1; reflexivity|].
  split; [apply H2|]. split; [apply H3|]. split; [|split].
  - apply H4.
    + wf_by_computation.
    + apply closed_graphb_correct. vm_compute. reflexivity.
    + discriminate.
  - apply H5. lia.
  - apply H6. simpl. left.
Defined.

(** ** The sample count *)

(** C2 (the code departs from it). With one sample on the two-page cycle
    the page drawn gets rank 0.0001, not 1.0, and the other page 0: the
    closing loop divides by the constant [SAMPLES] and not by the sample
    count it was given. This holds for every generator state and every
    damping factor. *)
Theorem sample_pagerank_one_sample (d : float) (g : rng float) :
  sampled_ranks (sample_pagerank graph_two_cycle d 1 g)
    = Ok [("A"%string, 0.0001%float); ("B"%string, 0%float)]
  \/ sampled_ranks (sample_pagerank graph_two_cycle d 1 g)
    = Ok [("A"%string, 0%float); ("B"%string, 0.0001%float)].
Proof.
  destruct (randrange_ok g 2 ltac:(lia)) as (i & g' & Hdraw & Hi).
  unfold sample_pagerank. change (length graph_two_cycle) with 2.
  rewrite Hdraw. destruct i as [|[|i]]; [left | right | lia];
    vm_compute; reflexivity.
Qed.

(** ** The update round *)

Section UpdateRound.
Context {V : Type}.
Variable f : dict V -> string -> result V.

(** A pass leaves the entries of the other keys alone. *)
Lemma assign_loop_other ks (d d' : dict V) q :
  q ∉ ks -> for_each (assign_body f) ks d = Ok d' ->
  dict_find d' q = dict_find d q.
Proof.
  revert d. induction ks as [|k ks IH]; intros d Hq; simpl.
  - by intros [= <-].
  - apply not_elem_of_cons in Hq as [Hne Hq].
    unfold assign_body at 1. destruct (f d k) as [v|]; simpl; [|done].
    intros Hloop. rewrite (IH _ Hq Hloop). by apply dict_find_set_ne.
Qed.

(** After the keys of [pre] have been visited, [pre] holds their new
    values and the rest of the dictionary is as it was. *)
Lemma assign_loop_prefix (visited pre rest mid : dict V) :
  wf_dict (visited ++ pre ++ rest) ->
  for_each (assign_body f) (keys pre) (visited ++ pre ++ rest) = Ok mid ->
  exists pre', mid = visited ++ pre' ++ rest /\ keys pre' = keys pre.
Proof.
  revert visited. induction pre as [|[k v] pre IH]; intros visited Hwf; simpl.
  - intros [= <-]. by exists [].
  - unfold assign_body at 1.
    destruct (f (visited ++ (k, v) :: pre ++ rest) k) as [v'|]; simpl; [|done].
    assert (k ∉ keys visited) as Hk.
    { unfold wf_dict in Hwf. rewrite keys_app in Hwf.
      apply NoDup_app in Hwf as (_ & Hd & _). intros Hin.
      apply (Hd k Hin). simpl. left. }
    rewrite dict_set_app_r, dict_set_head by done.
    intros Hloop. destruct (IH (visited ++ [(k, v')])) as (pre' & -> & Hk').
    + unfold wf_dict in *. by rewrite <- app_assoc, !keys_app in *.
    + by rewrite <- app_assoc.
    + exists ((k, v') :: pre'). rewrite <- app_assoc. simpl. by rewrite Hk'.
Qed.
End UpdateRound.

(** The round of the source visits the pages in key order and writes into
    the dictionary it reads: the rank of a page is computed from the
    dictionary as it stands at that moment, in which the pages before it
    already carry the values of this round ([pre']), the page itself and the
    pages after it still those of the previous round. *)
Theorem update_round_sequential {F : Type} `{PyFloat F}
    (corpus : corpus_t) (d : F) (pre rest : dict F) (p : string) (v : F)
    (ranks' : dict F) :
  wf_dict (pre ++ (p, v) :: rest) ->
  update_round corpus d (pre ++ (p, v) :: rest) = Ok ranks' ->
  exists pre' v',
    keys pre' = keys pre /\
    calcPageRank p corpus (pre' ++ (p, v) :: rest) d = Ok v' /\
    dict_find ranks' p = Some v' /\
    forall q, q ∈ keys pre -> dict_find ranks' q = dict_find pre' q.
Proof.
  intros Hwf. unfold update_round.
  change (fun ranks page => v0 <-- calcPageRank page corpus ranks d ;;
                            Ok (dict_set ranks page v0))
    with (assign_body (fun ranks page => calcPageRank page corpus ranks d)).
  set (f := fun ranks page => calcPageRank page corpus ranks d).
  rewrite keys_app, for_each_app.
  destruct (for_each (assign_body f) (keys pre) (pre ++ (p, v) :: rest))
    as [mid|] eqn:Hmid; simpl; [|done].
  destruct (assign_loop_prefix f [] pre ((p, v) :: rest) mid Hwf Hmid)
    as (pre' & -> & Hk').
  simpl. unfold assign_body at 1. unfold f at 1.
  destruct (calcPageRank p corpus (pre' ++ (p, v) :: rest) d) as [v'|] eqn:Hv;
    simpl; [|done].
  intros Hrest. exists pre', v'. split; [done|]. split; [done|].
  assert (NoDup (keys pre ++ p :: keys rest)) as Hnd.
  { unfold wf_dict in Hwf. by rewrite keys_app in Hwf. }
  apply NoDup_app in Hnd as (_ & Hdisj & Hnd2).
  apply NoDup_cons in Hnd2 as [Hp _].
  assert (p ∉ keys pre') as Hp'.
  { rewrite Hk'. intros Hin. apply (Hdisj p Hin). left. }
  split.
  - rewrite (assign_loop_other f _ _ _ p Hp Hrest).
    rewrite dict_set_app_r, dict_set_head by done.
    rewrite dict_find_app_r by done. simpl. by rewrite String.eqb_refl.
  - intros q Hq.
    assert (q ∉ keys rest) as Hqr.
    { intros Hin. apply (Hdisj q Hq). by right. }
    assert (q <> p) as Hqp.
    { intros ->. apply (Hdisj p Hq). left. }
    rewrite (assign_loop_other f _ _ _ q Hqr Hrest).
    rewrite dict_find_set_ne by done.
    rewrite <- Hk' in Hq. destruct (dict_find_in pre' q Hq) as [w Hw].
    rewrite Hw. by apply dict_find_app_l.
Qed.

Lemma update_round_sequential_witness :
  exists pre' v',
    keys pre' = keys [("A"%string, 0.5%float)] /\
    calcPageRank "B" graph_sink_rewritten (pre' ++ [("B"%string, 0.5%float)])
      0.85%float = Ok v' /\
    dict_find [("A"%string, 0.7124999999999999%float); ("B"%string, 0.3778%float)]
      "B" = Some v' /\
    forall q, q ∈ keys [("A"%string, 0.5%float)] ->
      dict_find [("A"%string, 0.7124999999999999%float); ("B"%string, 0.3778%float)] q
      = dict_find pre' q.
Proof.
  apply (update_round_sequential graph_sink_rewritten 0.85%float
           [("A"%string, 0.5%float)] [] "B" 0.5%float).
  - wf_by_computation.
  - vm_compute. reflexivity.
Defined.

(** C3 (the code departs from it). On the graph [{A: {A, B}, B: {A}}] with
    both ranks at 0.5, the round of the source gives B the rank 0.3778,
    which is [calcPageRank] read from a dictionary in which A already holds
    its new rank 0.7125 (in binary64, 0.7124999999999999). A round reading
    the previous assignment only, as the copy made on line 150 allows, gives
    B the rank 0.2875. *)
Lemma update_round_not_simultaneous :
  update_round graph_sink_rewritten 0.85%float
    [("A"%string, 0.5%float); ("B"%string, 0.5%float)]
  = Ok [("A"%string, 0.7124999999999999%float); ("B"%string, 0.3778%float)]
  /\ simultaneous_round graph_sink_rewritten 0.85%float
       [("A"%string, 0.5%float); ("B"%string, 0.5%float)]
     = Ok [("A"%string, 0.7124999999999999%float); ("B"%string, 0.2875%float)]
  /\ calcPageRank "B" graph_sink_rewritten
       [("A"%string, 0.7124999999999999%float); ("B"%string, 0.5%float)]
       0.85%float
     = Ok 0.3778%float
  /\ calcPageRank "B" graph_sink_rewritten
       [("A"%string, 0.5%float); ("B"%string, 0.5%float)] 0.85%float
     = Ok 0.2875%float
  /\ update_round graph_sink_rewritten 0.85%float
       [("A"%string, 0.5%float); ("B"%string, 0.5%float)]
     <> simultaneous_round graph_sink_rewritten 0.85%float
          [("A"%string, 0.5%float); ("B"%string, 0.5%float)].
Proof.
  repeat split; try (vm_compute; reflexivity).
  intros Heq.
  apply (f_equal (fun r : result (dict float) =>
                    match r with
                    | Ok [_; (_, x)] => Prim2SF x
                    | _ => S754_nan
                    end)) in Heq.
  vm_compute in Heq. discriminate.
Qed.

(** ** Results of the iteration *)

Lemma iterate_pagerank_more_fuel {F : Type} `{PyFloat F}
    (fuel extra : nat) (corpus : corpus_t) (d : F) r :
  snd (iterate_pagerank fuel corpus d) = Some r ->
  iterate_pagerank (fuel + extra) corpus d = iterate_pagerank fuel corpus d.
Proof.
  unfold iterate_pagerank. destruct (init_ranks corpus) as [ranks|]; [|done].
  destruct (rewrite_sinks corpus) as [corpus'|]; [|done]. simpl.
  intros Hr. by rewrite Hr, (iterate_loop_more_fuel _ _ _ _ _ _ Hr).
Qed.

(** A returned assignment has the pages of the graph as its keys, in the
    order of the graph. *)
Lemma init_ranks_key_list {F : Type} `{PyFloat F} (corpus : corpus_t)
    (ranks : dict F) :
  wf_dict corpus -> init_ranks corpus = Ok ranks -> keys ranks = keys corpus.
Proof.
  intros Hwf. unfold init_ranks. destruct corpus as [|kv corpus].
  - by intros [= <-].
  - set (c := kv :: corpus) in *.
    rewrite (for_each_ext _
      (fun ranks page =>
         Ok (dict_set ranks page (fdiv (of_int 1) (of_int (Z.of_nat (length c)))))))
      by done.
    rewrite for_each_assign_all, assign_all_fresh;
      [|done|by intros q _ ?%elem_of_nil].
    intros [= <-]. exact (keys_constant _ (keys c)).
Qed.

Lemma update_round_keys {F : Type} `{PyFloat F} (corpus : corpus_t) (d : F)
    (ranks ranks' : dict F) :
  update_round corpus d ranks = Ok ranks' -> keys ranks' = keys ranks.
Proof.
  apply (assign_loop_same_keys
           (fun ranks page => calcPageRank page corpus ranks d)).
  done.
Qed.

Lemma iterate_loop_keys {F : Type} `{PyFloat F} (fuel : nat)
    (corpus : corpus_t) (d : F) (ranks out : dict F) :
  iterate_loop fuel corpus d ranks = Some (Ok out) -> keys out = keys ranks.
Proof.
  revert ranks. induction fuel as [|fuel IH]; intros ranks; simpl; [done|].
  destruct (update_round corpus d ranks) as [ranks'|] eqn:Hround; [|done].
  apply update_round_keys in Hround.
  destruct (converged ranks ranks') as [[|]|]; [| |done].
  - intros [= <-]. done.
  - intros Hloop. by rewrite (IH _ Hloop).
Qed.

Lemma iterate_pagerank_keys {F : Type} `{PyFloat F} (fuel : nat)
    (corpus : corpus_t) (d : F) (out : dict F) :
  wf_dict corpus ->
  snd (iterate_pagerank fuel corpus d) = Some (Ok out) ->
  keys out = keys corpus.
Proof.
  intros Hwf.
  destruct (iterate_pagerank_unfold fuel corpus d Hwf) as (ranks & Hr & ->).
  simpl. intros Hloop. apply iterate_loop_keys in Hloop.
  by rewrite Hloop, (init_ranks_key_list corpus ranks Hwf Hr).
Qed.

(** C9. On [{A: {B}, B: {A}}] with damping 0.85 the first round leaves both
    ranks at 0.5, the convergence test succeeds, and [iterate_pagerank]
    returns 0.5 for A and 0.5 for B, however many further rounds it is
    allowed; in exact arithmetic the result is the same. *)
Theorem iterate_pagerank_two_cycle (extra : nat) :
  iterate_pagerank (1 + extra) graph_two_cycle 0.85%float
  = (graph_two_cycle, Some (Ok [("A"%string, 0.5%float); ("B"%string, 0.5%float)]))
  /\ iterate_pagerank (1 + extra) graph_two_cycle (85 # 100)%Q
     = (graph_two_cycle, Some (Ok [("A"%string, (1 # 2)%Q); ("B"%string, (1 # 2)%Q)])).
Proof.
  split.
  - rewrite (iterate_pagerank_more_fuel 1 extra _ _
               (Ok [("A"%string, 0.5%float); ("B"%string, 0.5%float)]));
      vm_compute; reflexivity.
  - rewrite (iterate_pagerank_more_fuel 1 extra _ _
               (Ok [("A"%string, (1 # 2)%Q); ("B"%string, (1 # 2)%Q)]));
      vm_compute; reflexivity.
Qed.

(** C7 (the code departs from it). On [{A: {}, B: {A}}] with damping 0.85
    the loop stops in its thirteenth round and returns 0.6525 for A and
    0.3523 for B: every page has a value in [0, 1], but the values add up to
    1.0048, which is further than 0.001 from 1. *)
Theorem iterate_pagerank_sink_sum (extra : nat) :
  snd (iterate_pagerank 12 graph_sink 0.85%float) = None
  /\ iterate_pagerank (13 + extra) graph_sink 0.85%float
     = (graph_sink_rewritten,
        Some (Ok [("A"%string, 0.6525%float); ("B"%string, 0.3523%float)]))
  /\ dict_sum [("A"%string, 0.6525%float); ("B"%string, 0.3523%float)]
     = 1.0048%float
  /\ fltb (literal (1 # 1000))
          (fabs (fsub (dict_sum [("A"%string, 0.6525%float);
                                 ("B"%string, 0.3523%float)])
                      (of_int 1))) = true.
Proof.
  split; [vm_compute; reflexivity|]. split.
  - rewrite (iterate_pagerank_more_fuel 13 extra _ _
               (Ok [("A"%string, 0.6525%float); ("B"%string, 0.3523%float)]));
      vm_compute; reflexivity.
  - split; vm_compute; reflexivity.
Qed.

(** On the same graph, a loop whose rounds read the previous assignment only
    stops at 0.6489 for A and 0.351 for B (in binary64,
    0.6488999999999999 and 0.35100000000000003), which add up to 0.9999. *)
Example simultaneous_loop_sink_sum :
  simultaneous_loop 40 graph_sink_rewritten 0.85%float
    [("A"%string, 0.5%float); ("B"%string, 0.5%float)]
  = Some (Ok [("A"%string, 0.6488999999999999%float); ("B"%string, 0.35100000000000003%float)])
  /\ dict_sum [("A"%string, 0.6488999999999999%float); ("B"%string, 0.35100000000000003%float)]
     = 0.9999%float
  /\ fltb (literal (1 # 1000))
          (fabs (fsub (dict_sum [("A"%string, 0.6488999999999999%float);
                                 ("B"%string, 0.35100000000000003%float)])
                      (of_int 1))) = false.
Proof. repeat split; vm_compute; reflexivity. Qed.

(** ** [crawl] *)

Example crawl_example :
  crawl example_read example_findall example_listing = Ok example_corpus.
Proof. vm_compute. reflexivity. Qed.

(** What holds before a loop and is kept by each pass holds after it. *)
Lemma for_each_invariant {A S} (P : S -> Prop) (body : S -> A -> result S)
    xs s s' :
  P s ->
  (forall s x s', x ∈ xs -> P s -> body s x = Ok s' -> P s') ->
  for_each body xs s = Ok s' -> P s'.
Proof.
  revert s. induction xs as [|x xs IH]; intros s Hs Hbody; simpl.
  - by intros [= <-].
  - destruct (body s x) as [s1|] eqn:E; simpl; [|done].
    apply IH; [eapply Hbody; [left | done..] |].
    intros s2 y s3 Hy. apply Hbody. by right.
Qed.

Lemma keys_keep_known known pages : keys (keep_known known pages) = keys pages.
Proof. unfold keep_known, keys. rewrite map_map. by apply map_ext. Qed.

Lemma keep_known_app known p1 p2 :
  keep_known known (p1 ++ p2) = keep_known known p1 ++ keep_known known p2.
Proof. apply map_app. Qed.

Lemma dict_find_keep_known known pages p :
  dict_find (keep_known known pages) p
  = (fun links : gset string => filter (fun link => link ∈ known) links)
      <$> dict_find pages p.
Proof.
  induction pages as [|[k s] pages IH]; simpl; [done|].
  destruct (String.eqb p k); [done | apply IH].
Qed.

(** The second loop visits the keys in order; the entries before the key it
    is at are already cut down, the entries from it on are not yet. *)
Lemma crawl_filter_from (known : list string) (visited rest : corpus_t) :
  wf_dict (visited ++ rest) ->
  known = keys (visited ++ rest) ->
  for_each
    (fun pages filename =>
       links <-- dict_get pages filename ;;
       Ok (dict_set pages filename
             (filter (fun link => link ∈ keys pages) links)))
    (keys rest) (keep_known known visited ++ rest)
  = Ok (keep_known known (visited ++ rest)).
Proof.
  revert visited.
  induction rest as [|[k links] rest IH]; intros visited Hwf Hknown; simpl.
  - by rewrite !app_nil_r.
  - assert (k ∉ keys (keep_known known visited)) as Hk.
    { rewrite keys_keep_known. unfold wf_dict in Hwf.
      rewrite keys_app in Hwf. apply NoDup_app in Hwf as (_ & Hd & _).
      intros Hin. apply (Hd k Hin). simpl. left. }
    unfold dict_get at 1. rewrite dict_find_app_r by done. simpl.
    rewrite String.eqb_refl. simpl.
    assert (keys (keep_known known visited ++ (k, links) :: rest) = known)
      as Hkeys.
    { by rewrite Hknown, !keys_app, keys_keep_known. }
    rewrite dict_set_app_r, dict_set_head by done. rewrite Hkeys.
    specialize (IH (visited ++ [(k, links)])).
    rewrite <- app_assoc in IH. simpl in IH. specialize (IH Hwf Hknown).
    rewrite keep_known_app, <- app_assoc in IH. simpl in IH. apply IH.
Qed.

Lemma crawl_filter_spec (pages : corpus_t) :
  wf_dict pages -> crawl_filter pages = Ok (keep_known (keys pages) pages).
Proof.
  intros Hwf. exact (crawl_filter_from _ [] pages Hwf eq_refl).
Qed.

(** What the first loop has put into the dictionary after a part of the
    listing. *)
Lemma crawl_read_from (read : string -> result string)
    (findall : string -> list string) (listing : list string)
    (pages0 pages : corpus_t) :
  for_each
    (fun pages filename =>
       if negb (endswith filename ".html") then Ok pages
       else
         contents <-- read filename ;;
         let links := findall contents in
         Ok (dict_set pages filename
               ((list_to_set links : gset string) ∖ {[filename]})))
    listing pages0 = Ok pages ->
  wf_dict pages0 ->
  wf_dict pages
  /\ (forall p, p ∈ keys pages
        <-> p ∈ keys pages0 \/ (p ∈ listing /\ endswith p ".html" = true))
  /\ (forall p links, dict_find pages p = Some links ->
        dict_find pages0 p = Some links
        \/ exists contents, read p = Ok contents
             /\ links = (list_to_set (findall contents) : gset string) ∖ {[p]})
  /\ (forall f, f ∈ listing -> endswith f ".html" = true -> is_ok (read f)).
Proof.
  revert pages0. induction listing as [|f listing IH]; intros pages0; simpl.
  - intros [= <-] Hwf. split; [done|]. split; [|split].
    + intros p. rewrite elem_of_nil. naive_solver.
    + intros p links Hp. by left.
    + by intros f ?%elem_of_nil.
  - destruct (endswith f ".html") eqn:Hhtml; simpl.
    + destruct (read f) as [contents|] eqn:Hread; simpl; [|done].
      intros Hloop Hwf.
      destruct (IH _ Hloop (wf_dict_set _ _ _ Hwf)) as (Hwf' & Hkeys & Hvals & Hreads).
      split; [done|]. split; [|split].
      * intros p. rewrite Hkeys, elem_of_keys_set, elem_of_cons.
        split; [|naive_solver].
        intros [[->|Hp]|[Hp Hh]]; [right; split; [by left | done] | by left |].
        right. split; [by right | done].
      * intros p links Hp. destruct (Hvals p links Hp) as [Hp0|Hnew]; [|by right].
        destruct (decide (p = f)) as [->|Hne].
        -- rewrite dict_find_set_eq in Hp0. injection Hp0 as <-.
           right. by exists contents.
        -- rewrite dict_find_set_ne in Hp0 by done. by left.
      * intros f' [->|Hf']%elem_of_cons Hh; [by rewrite Hread | by apply Hreads].
    + intros Hloop Hwf.
      destruct (IH _ Hloop Hwf) as (Hwf' & Hkeys & Hvals & Hreads).
      split; [done|]. split; [|split; [done|]].
      * intros p. rewrite Hkeys, elem_of_cons. split; [naive_solver|].
        intros [Hp|[[->|Hp] Hh]]; [by left | congruence | right; done].
      * intros f' [->|Hf']%elem_of_cons Hh; [congruence | by apply Hreads].
Qed.

Lemma crawl_unfold (read : string -> result string)
    (findall : string -> list string) (listing : list string)
    (pages : corpus_t) :
  crawl read findall listing = Ok pages ->
  exists pages1,
    pages = keep_known (keys pages1) pages1
    /\ wf_dict pages1
    /\ (forall p, p ∈ keys pages1
          <-> p ∈ listing /\ endswith p ".html" = true)
    /\ (forall p links, dict_find pages1 p = Some links ->
          exists contents, read p = Ok contents
            /\ links = (list_to_set (findall contents) : gset string) ∖ {[p]}).
Proof.
  unfold crawl. destruct (crawl_read read findall listing) as [pages1|] eqn:Hread;
    simpl; [|done].
  destruct (crawl_read_from read findall listing [] pages1 Hread)
    as (Hwf & Hkeys & Hvals & _); [apply NoDup_nil_2|].
  rewrite (crawl_filter_spec pages1 Hwf). intros [= <-].
  exists pages1. split; [done|]. split; [done|]. split.
  - intros p. rewrite Hkeys. simpl. rewrite elem_of_nil. naive_solver.
  - intros p links Hp. destruct (Hvals p links Hp) as [Hnil|Hnew]; [done|done].
Qed.

(** What [crawl] guarantees about the graph it returns. *)
Lemma crawl_graph_invariant (read : string -> result string)
    (findall : string -> list string) (listing : list string)
    (pages : corpus_t) :
  crawl read findall listing = Ok pages ->
  wf_dict pages /\ closed_graph pages.
Proof.
  intros (pages1 & -> & Hwf & _ & Hvals)%crawl_unfold. split.
  - unfold wf_dict. by rewrite keys_keep_known.
  - intros p links Hp. rewrite dict_find_keep_known in Hp.
    destruct (dict_find pages1 p) as [links1|] eqn:Hp1; [|done].
    injection Hp as <-.
    destruct (Hvals p links1 Hp1) as (contents & _ & ->). split.
    + rewrite elem_of_filter, elem_of_difference, elem_of_singleton.
      naive_solver.
    + intros q [Hq _]%elem_of_filter. by rewrite keys_keep_known.
Qed.

(** X1. The graph [crawl] returns is a dictionary with each page once in
    which no page links to itself and every linked page is a page of the
    graph. *)
Theorem crawl_closed_graph (read : string -> result string)
    (findall : string -> list string) (listing : list string)
    (pages : corpus_t) :
  crawl read findall listing = Ok pages ->
  wf_dict pages /\ closed_graph pages.
Proof. apply crawl_graph_invariant. Qed.

Lemma crawl_closed_graph_witness :
  wf_dict example_corpus /\ closed_graph example_corpus.
Proof.
  apply (crawl_closed_graph example_read example_findall example_listing).
  vm_compute. reflexivity.
Defined.

(** X2. The pages of the graph [crawl] returns are exactly the names of the
    listing that end in [.html]; any other file is skipped. *)
Theorem crawl_pages (read : string -> result string)
    (findall : string -> list string) (listing : list string)
    (pages : corpus_t) (p : string) :
  crawl read findall listing = Ok pages ->
  p ∈ keys pages <-> p ∈ listing /\ endswith p ".html" = true.
Proof.
  intros (pages1 & -> & _ & Hkeys & _)%crawl_unfold.
  by rewrite keys_keep_known.
Qed.

Lemma crawl_pages_witness :
  "notes.txt"%string ∈ keys example_corpus
  <-> "notes.txt"%string ∈ example_listing
      /\ endswith "notes.txt" ".html" = true.
Proof.
  apply (crawl_pages example_read example_findall example_listing).
  vm_compute. reflexivity.
Defined.

(** X3. In the graph [crawl] returns, a page links to exactly the names
    found in its contents that are other pages of the graph: links to
    itself and links to names outside the graph are dropped. *)
Theorem crawl_links (read : string -> result string)
    (findall : string -> list string) (listing : list string)
    (pages : corpus_t) (p : string) (links : gset string) :
  crawl read findall listing = Ok pages ->
  dict_find pages p = Some links ->
  exists contents,
    read p = Ok contents
    /\ forall q, q ∈ links
         <-> q ∈ findall contents /\ q <> p /\ q ∈ keys pages.
Proof.
  intros (pages1 & -> & _ & _ & Hvals)%crawl_unfold Hp.
  rewrite dict_find_keep_known in Hp.
  destruct (dict_find pages1 p) as [links1|] eqn:Hp1; [|done].
  injection Hp as <-.
  destruct (Hvals p links1 Hp1) as (contents & Hread & ->).
  exists contents. split; [done|]. intros q.
  rewrite elem_of_filter, elem_of_difference, elem_of_singleton,
    elem_of_list_to_set, keys_keep_known.
  naive_solver.
Qed.

Lemma crawl_links_witness :
  exists contents,
    example_read "1.html" = Ok contents
    /\ forall q, q ∈ ({["2.html"%string]} : gset string)
         <-> q ∈ example_findall contents /\ q <> "1.html"%string
             /\ q ∈ keys example_corpus.
Proof.
  apply (crawl_links example_read example_findall example_listing example_corpus).
  - vm_compute. reflexivity.
  - reflexivity.
Defined.

Lemma crawl_readable (read : string -> result string)
    (findall : string -> list string) (listing : list string) :
  (forall f, f ∈ listing -> endswith f ".html" = true -> is_ok (read f)) ->
  is_ok (crawl read findall listing).
Proof.
  intros Hreads. unfold crawl.
  destruct (for_each_total (fun _ : corpus_t => True)
    (fun pages filename =>
       if negb (endswith filename ".html") then Ok pages
       else
         contents <-- read filename ;;
         let links := findall contents in
         Ok (dict_set pages filename
               ((list_to_set links : gset string) ∖ {[filename]})))
    listing []) as (pages1 & Hread & _); [done | |].
  - intros pages f Hf _. destruct (endswith f ".html") eqn:Hh; simpl; [|eauto].
    specialize (Hreads f Hf Hh). destruct (read f); [|done]. simpl. eauto.
  - change (crawl_read read findall listing = Ok pages1) in Hread.
    rewrite Hread. simpl.
    destruct (crawl_read_from read findall listing [] pages1 Hread)
      as (Hwf & _); [apply NoDup_nil_2|].
    by rewrite (crawl_filter_spec pages1 Hwf).
Qed.

(** On a given listing, [crawl] returns a graph exactly when every listed
    file whose name ends in [.html] can be read. *)
Lemma crawl_listing_returns_iff (read : string -> result string)
    (findall : string -> list string) (listing : list string) :
  is_ok (crawl read findall listing)
  <-> forall f, f ∈ listing -> endswith f ".html" = true -> is_ok (read f).
Proof.
  split; [|apply crawl_readable].
  unfold crawl.
  destruct (crawl_read read findall listing) as [pages1|] eqn:Hread;
    simpl; [|done].
  intros _.
  by destruct (crawl_read_from read findall listing [] pages1 Hread)
    as (_ & _ & _ & Hreads); [apply NoDup_nil_2|].
Qed.

(** X4. [crawl(directory)] returns a graph exactly when the directory can
    be listed and every listed file whose name ends in [.html] can be read;
    files with other names are never opened. When the listing fails, its
    exception is the one [crawl] raises, and no file is opened. *)
Theorem crawl_directory_returns_iff
    (listdir : string -> result (list string))
    (read : string -> string -> result string)
    (findall : string -> list string) (directory : string) :
  (is_ok (crawl_directory listdir read findall directory)
   <-> exists listing,
         listdir directory = Ok listing
         /\ forall f, f ∈ listing -> endswith f ".html" = true ->
              is_ok (read directory f))
  /\ (forall e, listdir directory = Raise e ->
       forall read', crawl_directory listdir read' findall directory = Raise e).
Proof.
  unfold crawl_directory. split.
  - destruct (listdir directory) as [listing|e]; cbn [rbind].
    + rewrite crawl_listing_returns_iff. split.
      * intros Hreads. by exists listing.
      * by intros (listing' & [= <-] & Hreads).
    + split; [done|]. by intros (listing & ? & _).
  - intros e -> read'. reflexivity.
Qed.

Lemma crawl_directory_returns_iff_witness :
  (is_ok (crawl_directory example_listdir (fun _ => example_read)
            example_findall "corpus0")
   <-> exists listing,
         example_listdir "corpus0" = Ok listing
         /\ forall f, f ∈ listing -> endswith f ".html" = true ->
              is_ok (example_read f))
  /\ (forall e, example_listdir "corpus0" = Raise e ->
       forall read',
         crawl_directory example_listdir read' example_findall "corpus0"
         = Raise e).
Proof.
  apply (crawl_directory_returns_iff example_listdir (fun _ => example_read)
           example_findall "corpus0").
Defined.

(** A directory that cannot be listed: [crawl] raises what the listing
    raised. *)
Example crawl_directory_missing :
  crawl_directory example_listdir (fun _ => example_read) example_findall
    "nowhere" = Raise OSError.
Proof. reflexivity. Qed.

(** ** [calcPageRank] and the rounds of [iterate_pagerank] *)

Lemma size_elem_nonzero (links : gset string) (p : string) :
  p ∈ links -> size links <> 0.
Proof.
  intros Hp Hz. apply size_empty_inv in Hz. apply leibniz_equiv in Hz.
  subst links. by apply elem_of_empty in Hp.
Qed.

Lemma calcPageRank_ok {F : Type} `{PyFloat F} (p : string)
    (corpus : corpus_t) (ranks : dict F) (d : F) :
  corpus <> [] ->
  (forall q, q ∈ keys corpus -> q ∈ keys ranks) ->
  is_ok (calcPageRank p corpus ranks d).
Proof.
  intros Hne Hranks. unfold calcPageRank.
  destruct (for_each_total (fun _ : F => True)
    (fun acc page =>
       links <-- dict_get corpus page ;;
       if bool_decide (p ∈ links) then
         r <-- dict_get ranks page ;;
         q <-- div_int r (size links) ;;
         Ok (fadd acc (round4 q))
       else Ok acc)
    (keys corpus) (of_int 0)) as (total & -> & _); [done | |].
  - intros acc page Hpage _.
    destruct (dict_get_in corpus page Hpage) as [links ->]. simpl.
    destruct (bool_decide (p ∈ links)) eqn:Hin; [|eauto].
    apply bool_decide_eq_true in Hin.
    destruct (dict_get_in ranks page (Hranks page Hpage)) as [r ->]. simpl.
    rewrite div_int_pos by by apply (size_elem_nonzero links p). simpl. eauto.
  - simpl. rewrite div_int_pos by by destruct corpus. done.
Qed.

Lemma update_round_ok {F : Type} `{PyFloat F} (corpus : corpus_t) (d : F)
    (ranks : dict F) :
  keys ranks = keys corpus ->
  exists ranks', update_round corpus d ranks = Ok ranks'
                 /\ keys ranks' = keys corpus.
Proof.
  intros Hk. unfold update_round.
  apply (for_each_total (fun r : dict F => keys r = keys corpus)); [done|].
  intros r page Hpage Hr.
  assert (corpus <> []) as Hne.
  { intros ->. rewrite Hk in Hpage. by apply elem_of_nil in Hpage. }
  pose proof (calcPageRank_ok page corpus r d Hne) as Hok.
  destruct (calcPageRank page corpus r d) as [v|].
  - simpl. eexists. split; [done|]. rewrite keys_set_in; [done|].
    by rewrite Hr, <- Hk.
  - exfalso. apply Hok. intros q Hq. by rewrite Hr.
Qed.

Lemma converged_ok {F : Type} `{PyFloat F} (prevRanks ranks : dict F) :
  keys prevRanks = keys ranks -> is_ok (converged prevRanks ranks).
Proof.
  intros Hk. unfold converged.
  destruct (for_each_total (fun _ : bool => True)
    (fun (flag : bool) page =>
       if flag then
         a <-- dict_get prevRanks page ;;
         b <-- dict_get ranks page ;;
         Ok (negb (fltb (literal (1 # 1000)) (fabs (fsub a b))))
       else Ok false)
    (keys ranks) true) as (flag & -> & _); [done | | done].
  intros flag page Hpage _. destruct flag; [|eauto].
  destruct (dict_get_in ranks page Hpage) as [b ->].
  rewrite <- Hk in Hpage. destruct (dict_get_in prevRanks page Hpage) as [a ->].
  simpl. eauto.
Qed.

Lemma iterate_loop_no_raise {F : Type} `{PyFloat F} (fuel : nat)
    (corpus : corpus_t) (d : F) (ranks : dict F) :
  keys ranks = keys corpus ->
  iterate_loop fuel corpus d ranks = None
  \/ exists out, iterate_loop fuel corpus d ranks = Some (Ok out).
Proof.
  revert ranks. induction fuel as [|fuel IH]; intros ranks Hk; simpl.
  - by left.
  - destruct (update_round_ok corpus d ranks Hk) as (ranks' & -> & Hk').
    pose proof (converged_ok ranks ranks') as Hc.
    destruct (converged ranks ranks') as [[|]|].
    + right. eauto.
    + by apply IH.
    + exfalso. apply Hc. by rewrite Hk, Hk'.
Qed.

(** X6. On a dictionary with each page once [iterate_pagerank] raises no
    exception, whatever the links and the damping factor: within any number
    of rounds it is either still running or has returned an assignment. *)
Theorem iterate_pagerank_never_raises {F : Type} `{PyFloat F} (fuel : nat)
    (corpus : corpus_t) (d : F) :
  wf_dict corpus ->
  snd (iterate_pagerank fuel corpus d) = None
  \/ exists out, snd (iterate_pagerank fuel corpus d) = Some (Ok out).
Proof.
  intros Hwf.
  destruct (iterate_pagerank_unfold fuel corpus d Hwf) as (ranks & Hr & ->).
  simpl. apply iterate_loop_no_raise.
  by rewrite keys_fill_sinks, (init_ranks_key_list corpus ranks Hwf Hr).
Qed.

Lemma iterate_pagerank_never_raises_witness :
  snd (iterate_pagerank 5 example_corpus 0.85%float) = None
  \/ exists out, snd (iterate_pagerank 5 example_corpus 0.85%float) = Some (Ok out).
Proof.
  apply (iterate_pagerank_never_raises 5 example_corpus 0.85%float).
  wf_by_computation.
Defined.

Lemma converged_false_stays {F : Type} `{PyFloat F} (prevRanks ranks : dict F)
    (ks : list string) :
  for_each
    (fun (flag : bool) page =>
       if flag then
         a <-- dict_get prevRanks page ;;
         b <-- dict_get ranks page ;;
         Ok (negb (fltb (literal (1 # 1000)) (fabs (fsub a b))))
       else Ok false)
    ks false = Ok false.
Proof. induction ks as [|k ks IH]; simpl; [done | apply IH]. Qed.

Lemma converged_true_from {F : Type} `{PyFloat F} (prevRanks ranks : dict F)
    (ks : list string) :
  for_each
    (fun (flag : bool) page =>
       if flag then
         a <-- dict_get prevRanks page ;;
         b <-- dict_get ranks page ;;
         Ok (negb (fltb (literal (1 # 1000)) (fabs (fsub a b))))
       else Ok false)
    ks true = Ok true ->
  forall page, page ∈ ks ->
    exists a b, dict_find prevRanks page = Some a
      /\ dict_find ranks page = Some b
      /\ fltb (literal (1 # 1000)) (fabs (fsub a b)) = false.
Proof.
  induction ks as [|k ks IH]; simpl.
  - by intros _ page ?%elem_of_nil.
  - destruct (dict_get prevRanks k) as [a|] eqn:Ha; simpl; [|done].
    destruct (dict_get ranks k) as [b|] eqn:Hb; simpl; [|done].
    destruct (fltb (literal (1 # 1000)) (fabs (fsub a b))) eqn:Hlt; simpl.
    + by rewrite converged_false_stays.
    + intros Hrest page [->|Hpage]%elem_of_cons; [|by apply IH].
      exists a, b. by rewrite <- !dict_get_Ok.
Qed.

Lemma iterate_loop_last_round {F : Type} `{PyFloat F} (fuel : nat)
    (corpus : corpus_t) (d : F) (ranks out : dict F) :
  iterate_loop fuel corpus d ranks = Some (Ok out) ->
  exists prev,
    update_round corpus d prev = Ok out /\ converged prev out = Ok true.
Proof.
  revert ranks. induction fuel as [|fuel IH]; intros ranks; simpl; [done|].
  destruct (update_round corpus d ranks) as [ranks'|] eqn:Hround; [|done].
  destruct (converged ranks ranks') as [[|]|] eqn:Hc; [| |done].
  - intros [= <-]. by exists ranks.
  - apply IH.
Qed.

(** X7. The assignment [iterate_pagerank] returns is the outcome of one
    round applied to an assignment from which no page moved by more than
    0.001: for every page the test [abs(prev - new) > 0.001] is false. *)
Theorem iterate_pagerank_stopping_test {F : Type} `{PyFloat F} (fuel : nat)
    (corpus : corpus_t) (d : F) (out : dict F) :
  wf_dict corpus ->
  snd (iterate_pagerank fuel corpus d) = Some (Ok out) ->
  exists prev,
    update_round (fst (iterate_pagerank fuel corpus d)) d prev = Ok out
    /\ forall page, page ∈ keys corpus ->
         exists a b, dict_find prev page = Some a
           /\ dict_find out page = Some b
           /\ fltb (literal (1 # 1000)) (fabs (fsub a b)) = false.
Proof.
  intros Hwf Hout.
  pose proof (iterate_pagerank_keys fuel corpus d out Hwf Hout) as Hkeys.
  destruct (iterate_pagerank_unfold fuel corpus d Hwf) as (ranks & Hr & Heq).
  rewrite Heq in *. simpl in *.
  destruct (iterate_loop_last_round _ _ _ _ _ Hout) as (prev & Hround & Hc).
  exists prev. split; [done|]. intros page Hpage.
  apply (converged_true_from prev out (keys out) Hc). by rewrite Hkeys.
Qed.

Lemma iterate_pagerank_stopping_test_witness :
  exists prev,
    update_round (fst (iterate_pagerank 13 graph_sink 0.85%float)) 0.85%float prev
    = Ok [("A"%string, 0.6525%float); ("B"%string, 0.3523%float)]
    /\ forall page, page ∈ keys graph_sink ->
         exists a b, dict_find prev page = Some a
           /\ dict_find [("A"%string, 0.6525%float); ("B"%string, 0.3523%float)]
                page = Some b
           /\ fltb (literal (1 # 1000)) (fabs (fsub a b)) = false.
Proof.
  apply (iterate_pagerank_stopping_test 13 graph_sink 0.85%float).
  - wf_by_computation.
  - vm_compute. reflexivity.
Defined.

(** X8. The sink loop of [iterate_pagerank] changes nothing else in the
    caller's graph: the pages and their order stay, a page that has links
    keeps its link set, and afterwards no page is left without links. *)
Theorem iterate_pagerank_graph_after {F : Type} `{PyFloat F} (fuel : nat)
    (corpus : corpus_t) (d : F) :
  wf_dict corpus ->
  keys (fst (iterate_pagerank fuel corpus d)) = keys corpus
  /\ (forall p links, dict_find corpus p = Some links -> links <> ∅ ->
        dict_find (fst (iterate_pagerank fuel corpus d)) p = Some links)
  /\ (forall p links,
        dict_find (fst (iterate_pagerank fuel corpus d)) p = Some links ->
        links <> ∅).
Proof.
  intros Hwf.
  destruct (iterate_pagerank_unfold fuel corpus d Hwf) as (ranks & _ & ->).
  simpl. split; [apply keys_fill_sinks|]. split.
  - intros p links Hp Hne. rewrite dict_find_fill_sinks, Hp. simpl.
    destruct (Nat.eqb_spec (size links) 0) as [Hz|_]; [|done].
    apply size_empty_inv, leibniz_equiv in Hz. done.
  - intros p links Hp. rewrite dict_find_fill_sinks in Hp.
    destruct (dict_find corpus p) as [links0|] eqn:Hp0; [|done].
    apply dict_find_Some_in in Hp0. simpl in Hp.
    injection Hp as <-. intros Hempty.
    destruct (Nat.eqb_spec (size links0) 0) as [Hz|Hnz].
    + apply (size_all_pages (keys corpus) p Hp0). rewrite Hempty.
      apply size_empty.
    + apply Hnz. rewrite Hempty. apply size_empty.
Qed.

Lemma iterate_pagerank_graph_after_witness :
  keys (fst (iterate_pagerank 5 example_corpus 0.85%float)) = keys example_corpus
  /\ (forall p links, dict_find example_corpus p = Some links -> links <> ∅ ->
        dict_find (fst (iterate_pagerank 5 example_corpus 0.85%float)) p
        = Some links)
  /\ (forall p links,
        dict_find (fst (iterate_pagerank 5 example_corpus 0.85%float)) p
        = Some links ->
        links <> ∅).
Proof.
  apply (iterate_pagerank_graph_after 5 example_corpus 0.85%float).
  wf_by_computation.
Defined.

(** ** The visit counters of [sample_pagerank] *)

Lemma count_sum_set (ranks : dict Z) (page : string) (c c' : Z) :
  dict_find ranks page = Some c ->
  count_sum (dict_set ranks page c') = (count_sum ranks - c + c')%Z.
Proof.
  induction ranks as [|[k v] ranks IH]; simpl; [done|].
  destruct (String.eqb_spec page k) as [->|Hne]; simpl.
  - intros [= ->]. lia.
  - intros Hf. rewrite (IH Hf). lia.
Qed.

Lemma Forall_dict_set (P : Z -> Prop) (ranks : dict Z) (page : string) (c : Z) :
  Forall (fun kv => P (snd kv)) ranks -> P c ->
  Forall (fun kv => P (snd kv)) (dict_set ranks page c).
Proof.
  intros Hall Hc. induction ranks as [|[k v] ranks IH]; simpl.
  - by constructor.
  - apply Forall_cons in Hall as [Hv Hall].
    destruct (String.eqb page k); constructor; auto.
Qed.

Lemma Forall_dict_find (P : Z -> Prop) (ranks : dict Z) (page : string) (c : Z) :
  Forall (fun kv => P (snd kv)) ranks -> dict_find ranks page = Some c -> P c.
Proof.
  intros Hall. induction ranks as [|[k v] ranks IH]; simpl; [done|].
  apply Forall_cons in Hall as [Hv Hall].
  destruct (String.eqb page k); [by intros [= <-] | by apply IH].
Qed.

(** One more visit: the sum of the counters grows by one, no counter
    becomes negative and the keys stay. *)
Lemma incr_counts (ranks ranks' : dict Z) (page : string) :
  incr ranks page = Ok ranks' ->
  count_sum ranks' = (count_sum ranks + 1)%Z
  /\ keys ranks' = keys ranks
  /\ (Forall (fun kv => (0 <= snd kv)%Z) ranks ->
      Forall (fun kv => (0 <= snd kv)%Z) ranks').
Proof.
  unfold incr. destruct (dict_get ranks page) as [c|] eqn:Hc; simpl; [|done].
  apply dict_get_Ok in Hc. intros [= <-]. split; [|split].
  - rewrite (count_sum_set _ _ c) by done. lia.
  - apply keys_set_in. by apply dict_find_Some_in in Hc.
  - intros Hall. apply Forall_dict_set; [done|].
    pose proof (Forall_dict_find _ _ _ _ Hall Hc). simpl in *. lia.
Qed.

Lemma sample_step_counts {F : Type} `{PyFloat F} (corpus : corpus_t) (d : F)
    (st st' : dict Z * string * rng F) :
  sample_step corpus d st = Ok st' ->
  count_sum (fst (fst st')) = (count_sum (fst (fst st)) + 1)%Z
  /\ keys (fst (fst st')) = keys (fst (fst st))
  /\ (Forall (fun kv => (0 <= snd kv)%Z) (fst (fst st)) ->
      Forall (fun kv => (0 <= snd kv)%Z) (fst (fst st'))).
Proof.
  destruct st as [[ranks page] g]. unfold sample_step.
  destruct (transition_model corpus page d) as [model|]; [|done].
  cbn [rbind]. destruct (random g) as [r1 g1].
  destruct (fleb (fsub (of_int 1) d) r1).
  - destruct (random g1) as [r2 g2].
    destruct (incr ranks (pick model r2 (of_int 0) page)) as [ranks'|] eqn:Hi;
      [|done].
    cbn [rbind]. intros [= <-]. simpl. by apply incr_counts in Hi.
  - destruct (randrange g1 (length corpus)) as [[i g']|]; [|done].
    cbn [rbind fst snd]. destruct (key_at ranks i) as [next|]; [|done].
    cbn [rbind]. destruct (incr ranks next) as [ranks'|] eqn:Hi; [|done].
    cbn [rbind]. intros [= <-]. simpl. by apply incr_counts in Hi.
Qed.

Lemma sample_loop_counts {F : Type} `{PyFloat F} (count : nat)
    (corpus : corpus_t) (d : F) (st st' : dict Z * string * rng F) :
  sample_loop count corpus d st = Ok st' ->
  count_sum (fst (fst st')) = (count_sum (fst (fst st)) + Z.of_nat count)%Z
  /\ keys (fst (fst st')) = keys (fst (fst st))
  /\ (Forall (fun kv => (0 <= snd kv)%Z) (fst (fst st)) ->
      Forall (fun kv => (0 <= snd kv)%Z) (fst (fst st'))).
Proof.
  revert st. induction count as [|count IH]; intros st.
  - simpl. intros [= <-]. split; [lia | done].
  - cbn [sample_loop]. destruct (sample_step corpus d st) as [st1|] eqn:Hs;
      [|done].
    cbn [rbind]. intros Hloop.
    apply sample_step_counts in Hs as (Hs1 & Hs2 & Hs3).
    apply IH in Hloop as (Hl1 & Hl2 & Hl3).
    split; [lia|]. split; [congruence | auto].
Qed.

Lemma zero_counts_sum (ks : list string) (ranks : dict Z) :
  Forall (fun kv => snd kv = 0%Z) ranks ->
  Forall (fun kv => snd kv = 0%Z)
         (fold_left (fun r page => dict_set r page 0%Z) ks ranks).
Proof.
  revert ranks. induction ks as [|k ks IH]; intros ranks Hall; simpl; [done|].
  apply IH. by apply (Forall_dict_set (fun c => c = 0%Z)).
Qed.

Lemma count_sum_zero (ranks : dict Z) :
  Forall (fun kv => snd kv = 0%Z) ranks -> count_sum ranks = 0%Z.
Proof.
  induction 1 as [|[k v] ranks Hv _ IH]; simpl in *; [done | lia].
Qed.

(** The counters behind a returned assignment. *)
Lemma sample_pagerank_counts {F : Type} `{PyFloat F}
    (corpus : corpus_t) (d : F) (n : Z) (g g' : rng F) (out : dict F) :
  sample_pagerank corpus d n g = Ok (out, g') ->
  exists counts : dict Z,
    out = map (fun kv => (fst kv, fdiv (of_int (snd kv)) (of_int SAMPLES))) counts
    /\ count_sum counts = Z.max n 1
    /\ Forall (fun kv => (0 <= snd kv)%Z) counts
    /\ keys counts
       = keys (fold_left (fun r page => dict_set r page 0%Z) (keys corpus) []).
Proof.
  unfold sample_pagerank.
  set (ranks0 := fold_left (fun r page => dict_set r page 0%Z) (keys corpus) []).
  assert (Forall (fun kv => snd kv = 0%Z) ranks0) as Hzero.
  { apply zero_counts_sum. constructor. }
  destruct (randrange g (length corpus)) as [[i g1]|]; [|done].
  cbn [rbind fst snd]. destruct (key_at ranks0 i) as [page|]; [|done].
  cbn [rbind]. destruct (incr ranks0 page) as [ranks1|] eqn:Hi; [|done].
  cbn [rbind].
  destruct (sample_loop (Z.to_nat (n - 1)) corpus d (ranks1, page, g1))
    as [[[ranks2 page2] g2]|] eqn:Hloop; [|done].
  cbn [rbind fst snd]. rewrite normalise_spec. cbn [rbind fst snd].
  intros [= <- <-]. exists ranks2. split; [done|].
  apply incr_counts in Hi as (Hi1 & Hi2 & Hi3).
  apply sample_loop_counts in Hloop as (Hl1 & Hl2 & Hl3).
  simpl in Hl1, Hl2, Hl3.
  rewrite (count_sum_zero ranks0 Hzero) in Hi1. split; [lia|].
  split; [|congruence].
  apply Hl3, Hi3. eapply Forall_impl; [exact Hzero|].
  intros kv Hkv. simpl in Hkv. lia.
Qed.

(** X9. Whenever [sample_pagerank] returns, it returns one value per page
    of the graph, in the order of the graph, and every value is a visit
    count divided by [SAMPLES]; the counts are not negative and add up to
    the number of samples, [n], or to 1 when [n] is less than 1. *)
Theorem sample_pagerank_visit_counts {F : Type} `{PyFloat F}
    (corpus : corpus_t) (d : F) (n : Z) (g g' : rng F) (out : dict F) :
  wf_dict corpus ->
  sample_pagerank corpus d n g = Ok (out, g') ->
  exists counts : dict Z,
    out = map (fun kv => (fst kv, fdiv (of_int (snd kv)) (of_int SAMPLES))) counts
    /\ keys counts = keys corpus
    /\ count_sum counts = Z.max n 1
    /\ Forall (fun kv => (0 <= snd kv)%Z) counts.
Proof.
  intros Hwf (counts & Hout & Hsum & Hpos & Hkeys)%sample_pagerank_counts.
  exists counts. split; [done|]. split; [|done].
  rewrite Hkeys, zero_counts by done. apply keys_constant.
Qed.

Lemma sample_pagerank_visit_counts_witness :
  exists counts : dict Z,
    [("A"%string, 0.0003%float); ("B"%string, 0%float)]
    = map (fun kv => (fst kv, fdiv (of_int (snd kv)) (of_int SAMPLES))) counts
    /\ keys counts = keys graph_two_cycle
    /\ count_sum counts = Z.max 3 1
    /\ Forall (fun kv => (0 <= snd kv)%Z) counts.
Proof.
  apply (sample_pagerank_visit_counts graph_two_cycle 0.85%float 3 zero_rng
           (snd (match sample_pagerank graph_two_cycle 0.85%float 3 zero_rng with
                 | Ok x => x
                 | Raise _ => ([], zero_rng)
                 end))).
  - wf_by_computation.
  - vm_compute. reflexivity.
Defined.

(** ** One step of the walk *)

Lemma dict_find_assign_all {V} (v w : V) (qs : list string) (model : dict V)
    (q : string) :
  dict_find (assign_all v qs model) q = Some w ->
  (q ∈ qs /\ w = v) \/ ((q ∉ qs) /\ dict_find model q = Some w).
Proof.
  destruct (decide (q ∈ qs)) as [Hin|Hn].
  - rewrite dict_find_assign_all_in by done. intros [= <-]. by left.
  - rewrite dict_find_assign_all_notin by done. by right.
Qed.

(** X11. One step of the walk from [page]. When the first draw is at least
    [1 - damping_factor], the walk stays on [page] or moves to a page that
    [page] links to (to any page of the graph when [page] has no links);
    otherwise it moves to a page taken from the keys of the counters. *)
Theorem sample_step_next_page {F : Type} `{PyFloat F} (corpus : corpus_t)
    (d : F) (ranks ranks' : dict Z) (page next : string) (g g' : rng F)
    (links : gset string) :
  sample_step corpus d (ranks, page, g) = Ok (ranks', next, g') ->
  dict_find corpus page = Some links ->
  if fleb (fsub (of_int 1) d) (unit_tape g (unit_pos g)) then
    if Nat.eqb (size links) 0 then next = page \/ next ∈ keys corpus
    else next = page \/ next ∈ links
  else next ∈ keys ranks.
Proof.
  intros Hstep Hp. unfold sample_step in Hstep.
  assert (exists model,
    transition_model corpus page d = Ok model /\
    forall q, q ∈ keys model ->
      if Nat.eqb (size links) 0 then q ∈ keys corpus
      else q = page \/ q ∈ links) as (model & Hm & Hkeys).
  { destruct (Nat.eqb_spec (size links) 0) as [Hz|Hnz].
    - eexists. split; [exact (transition_model_sink _ _ d _ Hp Hz)|].
      intros q [Hq|Hq]%keys_assign_all; [by apply elem_of_nil in Hq | done].
    - eexists. split; [exact (transition_model_links _ _ d _ Hp Hnz)|].
      intros q [Hq|Hq]%keys_assign_all.
      + left. simpl in Hq. by apply list_elem_of_singleton in Hq.
      + right. by apply elem_of_elements in Hq. }
  rewrite Hm in Hstep. cbn [rbind] in Hstep. unfold random in Hstep.
  cbn [unit_tape unit_pos] in Hstep.
  destruct (fleb (fsub (of_int 1) d) (unit_tape g (unit_pos g))).
  - match type of Hstep with
    | context [pick model ?r ?z page] =>
        destruct (pick_in model r z page) as [Hsame|Hin];
        destruct (incr ranks (pick model r z page)); [|done| |done];
        cbn [rbind] in Hstep; injection Hstep as _ <- _
    end.
    + rewrite Hsame. destruct (Nat.eqb (size links) 0); by left.
    + apply Hkeys in Hin. destruct (Nat.eqb (size links) 0); [by right | done].
  - match type of Hstep with
    | context [randrange ?g0 ?n] => destruct (randrange g0 n) as [[i g1]|]; [|done]
    end.
    cbn [rbind fst snd] in Hstep. unfold key_at in Hstep.
    destruct (nth_error (keys ranks) i) as [k|] eqn:Hk; [|done].
    cbn [rbind] in Hstep. destruct (incr ranks k); [|done].
    cbn [rbind] in Hstep. injection Hstep as _ <- _.
    apply list_elem_of_In. by apply nth_error_In in Hk.
Qed.

Lemma sample_step_next_page_witness :
  if fleb (fsub (of_int 1) 0.85%float)
          (unit_tape (zero_rng (F := float)) (unit_pos (zero_rng (F := float))))
  then
    if Nat.eqb (size ({["B"%string]} : gset string)) 0
    then "A"%string = "A"%string \/ "A"%string ∈ keys graph_two_cycle
    else "A"%string = "A"%string \/ "A"%string ∈ ({["B"%string]} : gset string)
  else "A"%string ∈ keys [("A"%string, 1%Z); ("B"%string, 0%Z)].
Proof.
  apply (sample_step_next_page graph_two_cycle 0.85%float
           [("A"%string, 1%Z); ("B"%string, 0%Z)]
           [("A"%string, 2%Z); ("B"%string, 0%Z)] "A" "A" zero_rng
           {| index_tape := fun _ => 0; unit_tape := fun _ => of_int 0;
              index_pos := 1; unit_pos := 1 |}).
  - vm_compute. reflexivity.
  - reflexivity.
Defined.

(** ** What [calcPageRank] reads *)

(** X13. [calcPageRank] reads the ranks of the pages that link to the page
    it computes and no others: two rank dictionaries that agree on those
    pages give the same outcome, result or exception. *)
Theorem calcPageRank_reads_linking_pages {F : Type} `{PyFloat F}
    (pageToCalculate : string) (corpus : corpus_t) (ranks1 ranks2 : dict F)
    (d : F) :
  (forall q links, dict_find corpus q = Some links ->
     pageToCalculate ∈ links -> dict_find ranks1 q = dict_find ranks2 q) ->
  calcPageRank pageToCalculate corpus ranks1 d
  = calcPageRank pageToCalculate corpus ranks2 d.
Proof.
  intros Hagree. unfold calcPageRank.
  rewrite (for_each_ext
    (fun acc page =>
       links <-- dict_get corpus page ;;
       if bool_decide (pageToCalculate ∈ links) then
         r <-- dict_get ranks1 page ;;
         q <-- div_int r (size links) ;;
         Ok (fadd acc (round4 q))
       else Ok acc)
    (fun acc page =>
       links <-- dict_get corpus page ;;
       if bool_decide (pageToCalculate ∈ links) then
         r <-- dict_get ranks2 page ;;
         q <-- div_int r (size links) ;;
         Ok (fadd acc (round4 q))
       else Ok acc)); [done|].
  intros acc page _. destruct (dict_get corpus page) as [links|] eqn:Hl; [|done].
  simpl. destruct (bool_decide (pageToCalculate ∈ links)) eqn:Hin; [|done].
  apply bool_decide_eq_true in Hin. apply dict_get_Ok in Hl.
  unfold dict_get. by rewrite (Hagree page links Hl Hin).
Qed.

Lemma calcPageRank_reads_linking_pages_witness :
  calcPageRank "B" graph_sink_rewritten
    [("A"%string, 0.5%float); ("B"%string, 0.5%float)] 0.85%float
  = calcPageRank "B" graph_sink_rewritten
      [("A"%string, 0.5%float)] 0.85%float.
Proof.
  apply (calcPageRank_reads_linking_pages "B" graph_sink_rewritten
           [("A"%string, 0.5%float); ("B"%string, 0.5%float)]
           [("A"%string, 0.5%float)] 0.85%float).
  intros q links Hq Hin. simpl in Hq.
  destruct (String.eqb q "A") eqn:HA.
  - apply String.eqb_eq in HA. by subst q.
  - destruct (String.eqb q "B") eqn:HB; [|done].
    injection Hq as <-. exfalso. revert Hin.
    apply (bool_decide_eq_false_1 _). vm_compute. reflexivity.
Defined.

(** ** [crawl] followed by the estimators, and [main] *)

Lemma crawl_no_pages (read : string -> result string)
    (findall : string -> list string) (listing : list string) :
  (forall f, f ∈ listing -> endswith f ".html" = false) ->
  crawl read findall listing = Ok [].
Proof.
  intros Hnone. unfold crawl.
  assert (crawl_read read findall listing = Ok []) as ->; [|done].
  unfold crawl_read. induction listing as [|f listing IH]; simpl; [done|].
  rewrite (Hnone f) by left. simpl. apply IH.
  intros f' Hf'. apply Hnone. by right.
Qed.

(** X12. On the graph [crawl] returns, [sample_pagerank] returns a result
    for every damping factor, sample count and state of the generator as
    soon as the listing has a page; when the listing has no name ending in
    [.html] the graph is empty and [sample_pagerank] raises [ValueError]. *)
Theorem sample_pagerank_after_crawl {F : Type} `{PyFloat F}
    (read : string -> result string) (findall : string -> list string)
    (listing : list string) (pages : corpus_t) (d : F) (n : Z) (g : rng F) :
  crawl read findall listing = Ok pages ->
  ((exists f, f ∈ listing /\ endswith f ".html" = true) ->
     is_ok (sample_pagerank pages d n g))
  /\ ((forall f, f ∈ listing -> endswith f ".html" = false) ->
        sample_pagerank pages d n g = Raise ValueError).
Proof.
  intros Hcrawl. split.
  - intros (f & Hf & Hhtml).
    destruct (crawl_graph_invariant _ _ _ _ Hcrawl) as [Hwf Hclosed].
    assert (pages <> []) as Hne.
    { apply crawl_unfold in Hcrawl as (pages1 & -> & _ & Hkeys & _).
      assert (f ∈ keys pages1) as Hin by by apply Hkeys.
      intros Hnil. rewrite <- (keys_keep_known (keys pages1)), Hnil in Hin.
      by apply elem_of_nil in Hin. }
    by destruct (sample_pagerank_total pages d n g Hwf Hclosed Hne)
      as (ranks & g' & -> & _).
  - intros Hnone. rewrite (crawl_no_pages read findall listing Hnone) in Hcrawl.
    by injection Hcrawl as <-.
Qed.

Lemma sample_pagerank_after_crawl_witness :
  ((exists f, f ∈ example_listing /\ endswith f ".html" = true) ->
     is_ok (sample_pagerank example_corpus 0.85%float 7 zero_rng))
  /\ ((forall f, f ∈ example_listing -> endswith f ".html" = false) ->
        sample_pagerank example_corpus 0.85%float 7 zero_rng = Raise ValueError).
Proof.
  apply (sample_pagerank_after_crawl example_read example_findall example_listing).
  vm_compute. reflexivity.
Defined.

Lemma rank_lines_app {F} (fmt4 : F -> string) (ranks : dict F)
    (ps qs : list string) :
  rank_lines fmt4 ranks (ps ++ qs)
  = rank_lines fmt4 ranks ps ++ rank_lines fmt4 ranks qs.
Proof. unfold rank_lines. apply flat_map_app. Qed.

Lemma print_loop_spec {F} (fmt4 : F -> string) (ranks : dict F)
    (pages printed out : list string) :
  for_each
    (fun printed page =>
       v <-- dict_get ranks page ;;
       Ok (printed ++ [rank_line fmt4 page v]))
    pages printed = Ok out ->
  out = printed ++ rank_lines fmt4 ranks pages.
Proof.
  revert printed. induction pages as [|page pages IH]; intros printed; simpl.
  - intros [= <-]. by rewrite app_nil_r.
  - unfold dict_get. destruct (dict_find ranks page) as [v|]; simpl; [|done].
    intros Hrest. rewrite (IH _ Hrest), <- app_assoc. done.
Qed.

Lemma print_ranks_spec {F} (fmt4 : F -> string) (ranks : dict F)
    (lines : list string) :
  print_ranks fmt4 ranks = Ok lines ->
  lines = rank_lines fmt4 ranks (sorted_keys ranks).
Proof. intros Hp. by apply print_loop_spec in Hp. Qed.

Lemma elem_of_sorted_keys {V} (d : dict V) (p : string) :
  p ∈ sorted_keys d <-> p ∈ keys d.
Proof.
  unfold sorted_keys. by rewrite <- (StringSort.Permuted_sort (keys d)).
Qed.

Lemma print_ranks_ok {F} (fmt4 : F -> string) (ranks : dict F) :
  is_ok (print_ranks fmt4 ranks).
Proof.
  unfold print_ranks.
  destruct (for_each_total (fun _ : list string => True)
    (fun printed page =>
       v <-- dict_get ranks page ;;
       Ok (printed ++ [rank_line fmt4 page v]))
    (sorted_keys ranks) []) as (lines & -> & _); [done | | done].
  intros printed page Hpage%elem_of_sorted_keys _.
  destruct (dict_get_in ranks page Hpage) as [v ->]. simpl. eauto.
Qed.

Lemma length_rank_lines {F} (fmt4 : F -> string) (ranks : dict F)
    (pages : list string) :
  (forall p, p ∈ pages -> p ∈ keys ranks) ->
  length (rank_lines fmt4 ranks pages) = length pages.
Proof.
  induction pages as [|p pages IH]; intros Hin; simpl; [done|].
  destruct (dict_find_in ranks p) as [v ->]; [apply Hin; left|].
  simpl. f_equal. apply IH. intros q Hq. apply Hin. by right.
Qed.

(** X15. Started on a directory in which no name ends in [.html], [main]
    ends with an uncaught [ValueError], raised by the first random draw of
    [sample_pagerank], and has printed nothing. *)
Theorem main_no_pages {F : Type} `{PyFloat F} (fmt4 : F -> string)
    (listdir : string -> result (list string))
    (read : string -> string -> result string)
    (findall : string -> list string)
    (argv : list string) (g : rng F) (fuel : nat) (listing : list string) :
  length argv = 2 ->
  listdir (nth 1 argv ""%string) = Ok listing ->
  (forall f, f ∈ listing -> endswith f ".html" = false) ->
  main fmt4 listdir read findall argv g fuel = Uncaught ValueError [].
Proof.
  intros Hargv Hlist Hnone. unfold main, crawl_directory.
  rewrite Hargv, Hlist. simpl.
  by rewrite (crawl_no_pages _ findall listing Hnone).
Qed.

Lemma main_no_pages_witness :
  main fmt4_binary64 (fun _ => Ok ["notes.txt"%string; "html"%string])
    (fun _ => example_read) example_findall
    ["pagerank.py"%string; "corpus0"%string] zero_rng 40
  = Uncaught ValueError [].
Proof.
  apply (main_no_pages fmt4_binary64 _ _ _ _ _ _
           ["notes.txt"%string; "html"%string]).
  - reflexivity.
  - reflexivity.
  - intros f Hf. apply elem_of_cons in Hf as [->|Hf]; [reflexivity|].
    apply list_elem_of_singleton in Hf as ->. reflexivity.
Defined.

(** X16. When [main] runs to its end it has printed, under each of its two
    headings, one line per page of the crawled graph, the pages in ascending
    order of their names; the first block carries the values of
    [sample_pagerank], the second those of [iterate_pagerank]. *)
Theorem main_output {F : Type} `{PyFloat F} (fmt4 : F -> string)
    (listdir : string -> result (list string))
    (read : string -> string -> result string)
    (findall : string -> list string)
    (argv : list string) (g : rng F) (fuel : nat) (printed : list string) :
  main fmt4 listdir read findall argv g fuel = Finished printed ->
  exists listing corpus sampled iterated,
    listdir (nth 1 argv ""%string) = Ok listing
    /\ crawl (read (nth 1 argv ""%string)) findall listing = Ok corpus
    /\ sampled_ranks (sample_pagerank corpus DAMPING SAMPLES g) = Ok sampled
    /\ snd (iterate_pagerank fuel corpus DAMPING) = Some (Ok iterated)
    /\ printed
       = sampling_header :: rank_lines fmt4 sampled (sorted_keys corpus)
         ++ iteration_header :: rank_lines fmt4 iterated (sorted_keys corpus)
    /\ Permutation (keys corpus) (sorted_keys corpus)
    /\ LocallySorted (fun p q => String.leb p q = true) (sorted_keys corpus)
    /\ length printed = 2 + 2 * length corpus.
Proof.
  unfold main, crawl_directory.
  destruct (negb (Nat.eqb (length argv) 2)); [done|].
  destruct (listdir (nth 1 argv ""%string)) as [listing|]; [|done].
  cbn [rbind].
  destruct (crawl (read (nth 1 argv ""%string)) findall listing)
    as [corpus|] eqn:Hcrawl; [|done].
  destruct (crawl_graph_invariant _ _ _ _ Hcrawl) as [Hwf _].
  destruct (sample_pagerank corpus DAMPING SAMPLES g)
    as [[sampled g']|] eqn:Hsample; [|done].
  destruct (print_ranks fmt4 sampled) as [lines1|] eqn:Hp1; [|done].
  destruct (snd (iterate_pagerank fuel corpus DAMPING))
    as [[iterated|]|] eqn:Hiter; [|done|done].
  destruct (print_ranks fmt4 iterated) as [lines2|] eqn:Hp2; [|done].
  intros [= <-].
  assert (keys sampled = keys corpus) as Hk1.
  { pose proof Hsample as Hcounts.
    apply sample_pagerank_counts in Hcounts as (counts & Hout & _ & _ & Hk).
    rewrite Hout, keys_normalised, Hk, zero_counts by done.
    apply keys_constant. }
  assert (keys iterated = keys corpus) as Hk2
    by exact (iterate_pagerank_keys fuel corpus DAMPING iterated Hwf Hiter).
  apply print_ranks_spec in Hp1, Hp2. unfold sorted_keys in *.
  rewrite Hk1 in Hp1. rewrite Hk2 in Hp2. subst lines1 lines2.
  exists listing, corpus, sampled, iterated.
  split; [done|]. split; [done|]. split; [by rewrite Hsample|]. split; [done|].
  split; [done|]. split; [apply StringSort.Permuted_sort|].
  split; [apply StringSort.LocallySorted_sort|].
  cbn [length]. rewrite length_app. cbn [length].
  rewrite !length_rank_lines.
  - rewrite <- (Permutation_length (StringSort.Permuted_sort (keys corpus))).
    rewrite length_keys. lia.
  - intros p Hp. rewrite Hk2. by rewrite (StringSort.Permuted_sort (keys corpus)).
  - intros p Hp. rewrite Hk1. by rewrite (StringSort.Permuted_sort (keys corpus)).
Qed.

Lemma main_output_witness :
  exists listing corpus sampled iterated,
    example_listdir (nth 1 ["pagerank.py"%string; "corpus0"%string] ""%string)
    = Ok listing
    /\ crawl example_read example_findall listing = Ok corpus
    /\ sampled_ranks (sample_pagerank corpus DAMPING SAMPLES zero_rng) = Ok sampled
    /\ snd (iterate_pagerank 40 corpus DAMPING) = Some (Ok iterated)
    /\ ["PageRank Results from Sampling (n = 10000)"%string;
        "  1.html: 1.0000"%string; "  2.html: 0.0000"%string;
        "  3.html: 0.0000"%string;
        "PageRank Results from Iteration"%string;
        "  1.html: 0.3042"%string; "  2.html: 0.3948"%string;
        "  3.html: 0.3041"%string]
       = sampling_header :: rank_lines fmt4_binary64 sampled (sorted_keys corpus)
         ++ iteration_header :: rank_lines fmt4_binary64 iterated (sorted_keys corpus)
    /\ Permutation (keys corpus) (sorted_keys corpus)
    /\ LocallySorted (fun p q => String.leb p q = true) (sorted_keys corpus)
    /\ length
         ["PageRank Results from Sampling (n = 10000)"%string;
          "  1.html: 1.0000"%string; "  2.html: 0.0000"%string;
          "  3.html: 0.0000"%string;
          "PageRank Results from Iteration"%string;
          "  1.html: 0.3042"%string; "  2.html: 0.3948"%string;
          "  3.html: 0.3041"%string]
       = 2 + 2 * length corpus.
Proof.
  apply (main_output fmt4_binary64 example_listdir (fun _ => example_read)
           example_findall ["pagerank.py"%string; "corpus0"%string]
           zero_rng 40).
  vm_compute. reflexivity.
Defined.

(** X17. Started with one argument on a directory that has at least one
    page and whose pages can all be read, [main] ends with no exception.
    The graph is crawled and sampled, and within any number of rounds either
    [iterate_pagerank] is still in its loop, and [main] has printed the
    sampling heading and one line per page with the sampled values, pages in
    ascending order; or [iterate_pagerank] has returned, and [main] has
    printed after these the iteration heading and one line per page with the
    values [iterate_pagerank] returned. *)
Theorem main_no_exception {F : Type} `{PyFloat F} (fmt4 : F -> string)
    (listdir : string -> result (list string))
    (read : string -> string -> result string)
    (findall : string -> list string)
    (argv : list string) (g : rng F) (fuel : nat) (listing : list string) :
  length argv = 2 ->
  listdir (nth 1 argv ""%string) = Ok listing ->
  (forall f, f ∈ listing -> endswith f ".html" = true ->
     is_ok (read (nth 1 argv ""%string) f)) ->
  (exists f, f ∈ listing /\ endswith f ".html" = true) ->
  exists corpus sampled,
    crawl (read (nth 1 argv ""%string)) findall listing = Ok corpus
    /\ sampled_ranks (sample_pagerank corpus DAMPING SAMPLES g) = Ok sampled
    /\ keys sampled = keys corpus
    /\ ((snd (iterate_pagerank fuel corpus DAMPING) = None
         /\ main fmt4 listdir read findall argv g fuel
            = Unfinished
                (sampling_header
                 :: rank_lines fmt4 sampled (sorted_keys corpus)))
        \/ (exists iterated,
              snd (iterate_pagerank fuel corpus DAMPING) = Some (Ok iterated)
              /\ keys iterated = keys corpus
              /\ main fmt4 listdir read findall argv g fuel
                 = Finished
                     (sampling_header
                      :: rank_lines fmt4 sampled (sorted_keys corpus)
                      ++ iteration_header
                      :: rank_lines fmt4 iterated (sorted_keys corpus)))).
Proof.
  intros Hargv Hlist Hreads (f & Hf & Hhtml). unfold main, crawl_directory.
  rewrite Hargv, Hlist. cbn [Nat.eqb negb rbind].
  pose proof (crawl_readable _ findall listing Hreads) as Hok.
  destruct (crawl (read (nth 1 argv ""%string)) findall listing)
    as [corpus|] eqn:Hcrawl; [|done].
  destruct (crawl_graph_invariant _ _ _ _ Hcrawl) as [Hwf Hclosed].
  assert (corpus <> []) as Hne.
  { apply crawl_unfold in Hcrawl as (pages1 & -> & _ & Hkeys & _).
    assert (f ∈ keys pages1) as Hin by by apply Hkeys.
    intros Hnil. rewrite <- (keys_keep_known (keys pages1)), Hnil in Hin.
    by apply elem_of_nil in Hin. }
  destruct (sample_pagerank_total corpus DAMPING SAMPLES g Hwf Hclosed Hne)
    as (sampled & g' & Hsample & _).
  assert (keys sampled = keys corpus) as Hk1.
  { pose proof Hsample as Hcounts.
    apply sample_pagerank_counts in Hcounts as (counts & Hout & _ & _ & Hk).
    rewrite Hout, keys_normalised, Hk, zero_counts by done.
    apply keys_constant. }
  rewrite Hsample.
  exists corpus, sampled. split; [done|].
  split; [by rewrite Hsample|]. split; [done|].
  pose proof (print_ranks_ok fmt4 sampled) as Hp1.
  destruct (print_ranks fmt4 sampled) as [lines1|] eqn:Hl1; [|done].
  apply print_ranks_spec in Hl1. unfold sorted_keys in Hl1.
  rewrite Hk1 in Hl1. fold (sorted_keys corpus) in Hl1. subst lines1.
  destruct (snd (iterate_pagerank fuel corpus DAMPING))
    as [[iterated|e]|] eqn:Hiter.
  - right. exists iterated. split; [done|].
    assert (keys iterated = keys corpus) as Hk2
      by exact (iterate_pagerank_keys fuel corpus DAMPING iterated Hwf Hiter).
    split; [done|].
    pose proof (print_ranks_ok fmt4 iterated) as Hp2.
    destruct (print_ranks fmt4 iterated) as [lines2|] eqn:Hl2; [|done].
    apply print_ranks_spec in Hl2. unfold sorted_keys in Hl2.
    rewrite Hk2 in Hl2. fold (sorted_keys corpus) in Hl2. by subst lines2.
  - exfalso.
    destruct (iterate_pagerank_unfold fuel corpus DAMPING Hwf)
      as (ranks & Hr & Heq).
    rewrite Heq in Hiter. cbn [snd] in Hiter.
    destruct (iterate_loop_no_raise fuel
                (fill_sinks (list_to_set (keys corpus)) corpus) DAMPING ranks)
      as [Hnone|[out Hout]].
    + by rewrite keys_fill_sinks, (init_ranks_key_list corpus ranks Hwf Hr).
    + by rewrite Hnone in Hiter.
    + by rewrite Hout in Hiter.
  - by left.
Qed.

Lemma main_no_exception_witness :
  exists corpus sampled,
    crawl example_read example_findall example_listing = Ok corpus
    /\ sampled_ranks (sample_pagerank corpus DAMPING SAMPLES zero_rng)
       = Ok sampled
    /\ keys sampled = keys corpus
    /\ ((snd (iterate_pagerank 3 corpus DAMPING) = None
         /\ main fmt4_binary64 example_listdir (fun _ => example_read)
              example_findall ["pagerank.py"%string; "corpus0"%string]
              zero_rng 3
            = Unfinished
                (sampling_header
                 :: rank_lines fmt4_binary64 sampled (sorted_keys corpus)))
        \/ (exists iterated,
              snd (iterate_pagerank 3 corpus DAMPING) = Some (Ok iterated)
              /\ keys iterated = keys corpus
              /\ main fmt4_binary64 example_listdir (fun _ => example_read)
                   example_findall ["pagerank.py"%string; "corpus0"%string]
                   zero_rng 3
                 = Finished
                     (sampling_header
                      :: rank_lines fmt4_binary64 sampled (sorted_keys corpus)
                      ++ iteration_header
                      :: rank_lines fmt4_binary64 iterated
                           (sorted_keys corpus)))).
Proof.
  apply (main_no_exception fmt4_binary64 example_listdir (fun _ => example_read)
           example_findall ["pagerank.py"%string; "corpus0"%string]
           zero_rng 3 example_listing).
  - reflexivity.
  - reflexivity.
  - intros f Hf Hhtml. unfold example_listing in Hf.
    repeat (apply elem_of_cons in Hf as [->|Hf]; [vm_compute; try exact I|]).
    + discriminate.
    + by apply elem_of_nil in Hf.
  - exists "1.html"%string. split; [left | reflexivity].
Defined.

(** With three rounds allowed the loop is still running on the example
    directory, and the sampling block is what has been printed. *)
Example main_three_rounds :
  main fmt4_binary64 example_listdir (fun _ => example_read) example_findall
    ["pagerank.py"%string; "corpus0"%string] zero_rng 3
  = Unfinished
      ["PageRank Results from Sampling (n = 10000)"%string;
       "  1.html: 1.0000"%string; "  2.html: 0.0000"%string;
       "  3.html: 0.0000"%string].
Proof. vm_compute. reflexivity. Qed.

(** X5. Whenever [iterate_pagerank] returns, the assignment has one entry
    per page of the graph, in the order of the graph, and no other entry. *)
Theorem iterate_pagerank_pages {F : Type} `{PyFloat F} (fuel : nat)
    (corpus : corpus_t) (d : F) (out : dict F) :
  wf_dict corpus ->
  snd (iterate_pagerank fuel corpus d) = Some (Ok out) ->
  keys out = keys corpus /\ wf_dict out /\ length out = length corpus.
Proof.
  intros Hwf Hout.
  pose proof (iterate_pagerank_keys fuel corpus d out Hwf Hout) as Hk.
  split; [done|]. split.
  - unfold wf_dict. by rewrite Hk.
  - by rewrite <- (length_keys out), Hk, length_keys.
Qed.

Lemma iterate_pagerank_pages_witness :
  keys [("A"%string, 0.6525%float); ("B"%string, 0.3523%float)] = keys graph_sink
  /\ wf_dict [("A"%string, 0.6525%float); ("B"%string, 0.3523%float)]
  /\ length [("A"%string, 0.6525%float); ("B"%string, 0.3523%float)]
     = length graph_sink.
Proof.
  apply (iterate_pagerank_pages 13 graph_sink 0.85%float).
  - wf_by_computation.
  - vm_compute. reflexivity.
Defined.
